(** * zorm: the query-set compiler (queryset.go) and the MySQL operator table
      (mysql/operators.go), embedded as Rocq functions.

    Go strings are byte strings: they are modelled as [string] (a list of
    [ascii], one per byte).  A function that can panic returns a [result];
    the builder methods, which mutate their receiver, are state transformers
    over [QuerySetImpl] that keep the receiver as it was when a panic
    unwinds. *)

From Stdlib Require Import String Ascii List Bool Arith NArith ZArith Lia.
From Stdlib Require Import DecimalString.
Import ListNotations.
Open Scope list_scope.
Open Scope string_scope.

Set Implicit Arguments.

(** ** Outcomes: a normal return or a panic ([log.Panicf]) *)

Inductive result (A : Type) : Type :=
| Ok (a : A)
| Panic (msg : string).
Arguments Ok {A} a.
Arguments Panic {A} msg.

Definition bind {A B : Type} (r : result A) (k : A -> result B) : result B :=
  match r with
  | Ok a => k a
  | Panic msg => Panic msg
  end.

Notation "x <- r ;; k" := (bind r (fun x => k))
  (at level 61, r at next level, right associativity).

Definition panics {A : Type} (r : result A) : Prop :=
  exists msg, r = Panic msg.

(** ** The parts of Go's [strings] package the program calls *)

Module GoStrings.

Fixpoint rev (s : string) : string :=
  match s with
  | EmptyString => EmptyString
  | String c r => rev r ++ String c EmptyString
  end.

(** [s[n:]] and [s[:n]] for [n <= len(s)] *)
Fixpoint drop (n : nat) (s : string) : string :=
  match n, s with
  | O, _ => s
  | S _, EmptyString => EmptyString
  | S k, String _ r => drop k r
  end.

Fixpoint take (n : nat) (s : string) : string :=
  match n, s with
  | O, _ => EmptyString
  | S _, EmptyString => EmptyString
  | S k, String c r => String c (take k r)
  end.

(** A slice expression panics when its bound is outside the string. *)
Definition sliceFrom (s : string) (n : nat) : result string :=
  if (n <=? String.length s)%nat then Ok (drop n s)
  else Panic "runtime error: slice bounds out of range".

Definition sliceTo (s : string) (n : nat) : result string :=
  if (n <=? String.length s)%nat then Ok (take n s)
  else Panic "runtime error: slice bounds out of range".

Definition HasPrefix (s p : string) : bool := prefix p s.

Definition HasSuffix (s p : string) : bool := prefix (rev p) (rev s).

Fixpoint Repeat (s : string) (n : nat) : string :=
  match n with
  | O => EmptyString
  | S k => s ++ Repeat s k
  end.

Fixpoint Join (l : list string) (sep : string) : string :=
  match l with
  | [] => EmptyString
  | [x] => x
  | x :: r => x ++ sep ++ Join r sep
  end.

(** [Split s sep] for a non-empty [sep]: cut at every occurrence of [sep],
    found left to right without overlap.  [skip] counts the bytes of a
    separator just matched that are still to be passed over. *)
Fixpoint splitFrom (sep : string) (skip : nat) (cur s : string) : list string :=
  match s with
  | EmptyString => [cur]
  | String c r =>
      match skip with
      | S k => splitFrom sep k cur r
      | O =>
          if prefix sep s
          then cur :: splitFrom sep (String.length sep - 1) EmptyString r
          else splitFrom sep 0 (cur ++ String c EmptyString) r
      end
  end.

Definition Split (s sep : string) : list string := splitFrom sep 0 EmptyString s.

(** White space as [unicode.IsSpace] sees it: the six ASCII bytes, and the
    UTF-8 encodings of U+0085, U+00A0, U+1680, U+2000..U+200A, U+2028,
    U+2029, U+202F, U+205F and U+3000. *)
Definition byte (c : ascii) : N := N_of_ascii c.

Definition asciiSpace (c : ascii) : bool :=
  let b := byte c in
  ((9 <=? b) && (b <=? 13) || (b =? 32))%N.

Definition space2 (c1 c2 : ascii) : bool :=
  ((byte c1 =? 194) && ((byte c2 =? 133) || (byte c2 =? 160)))%N.

Definition space3 (c1 c2 c3 : ascii) : bool :=
  let b1 := byte c1 in
  let b2 := byte c2 in
  let b3 := byte c3 in
  (((b1 =? 225) && (b2 =? 154) && (b3 =? 128))
   || ((b1 =? 226) && (b2 =? 128)
         && (((128 <=? b3) && (b3 <=? 138)) || (b3 =? 168) || (b3 =? 169) || (b3 =? 175)))
   || ((b1 =? 226) && (b2 =? 129) && (b3 =? 159))
   || ((b1 =? 227) && (b2 =? 128) && (b3 =? 128)))%N.

(** [TrimLeftFunc(s, unicode.IsSpace)] *)
Fixpoint trimLeft (s : string) : string :=
  match s with
  | EmptyString => s
  | String c1 r1 =>
      if asciiSpace c1 then trimLeft r1
      else if (byte c1 <? 128)%N then s
      else
        match r1 with
        | EmptyString => s
        | String c2 r2 =>
            if space2 c1 c2 then trimLeft r2
            else
              match r2 with
              | EmptyString => s
              | String c3 r3 => if space3 c1 c2 c3 then trimLeft r3 else s
              end
        end
  end.

(** The same scan from the end, on the reversed string: the last byte of
    a rune comes first, and the tests name the bytes in their order in
    the string. *)
Fixpoint trimLeftRev (s : string) : string :=
  match s with
  | EmptyString => s
  | String c1 r1 =>
      if asciiSpace c1 then trimLeftRev r1
      else if (byte c1 <? 128)%N then s
      else
        match r1 with
        | EmptyString => s
        | String c2 r2 =>
            if space2 c2 c1 then trimLeftRev r2
            else
              match r2 with
              | EmptyString => s
              | String c3 r3 => if space3 c3 c2 c1 then trimLeftRev r3 else s
              end
        end
  end.

Definition trimRight (s : string) : string := rev (trimLeftRev (rev s)).

Definition TrimSpace (s : string) : string := trimRight (trimLeft s).

End GoStrings.
Import GoStrings.

(** ** Values of type [any], as [reflect] shows them *)

Inductive Kind : Type :=
| Invalid | Bool
| Int | Int8 | Int16 | Int32 | Int64
| Uint | Uint8 | Uint16 | Uint32 | Uint64 | Uintptr
| Float32 | Float64 | Complex64 | Complex128
| Array | Chan | Func | Interface | Map | Ptr | Slice
| String_ | Struct | UnsafePointer.

(** [Kind.String()], which [%s] and [%+v] print *)
Definition Kind_String (k : Kind) : string :=
  match k with
  | Invalid => "invalid" | Bool => "bool"
  | Int => "int" | Int8 => "int8" | Int16 => "int16" | Int32 => "int32" | Int64 => "int64"
  | Uint => "uint" | Uint8 => "uint8" | Uint16 => "uint16" | Uint32 => "uint32"
  | Uint64 => "uint64" | Uintptr => "uintptr"
  | Float32 => "float32" | Float64 => "float64"
  | Complex64 => "complex64" | Complex128 => "complex128"
  | Array => "array" | Chan => "chan" | Func => "func" | Interface => "interface"
  | Map => "map" | Ptr => "ptr" | Slice => "slice"
  | String_ => "string" | Struct => "struct" | UnsafePointer => "unsafe.Pointer"
  end.

(** A value is either a slice or array, with the kind [v.Index(0).Kind()]
    reports for its elements (the element type's kind: [Interface] for a
    [[]any]) and its elements, or anything else: its kind, never [Slice] or
    [Array], and its contents written out.  A nil interface is
    [Atom Invalid]. *)
#[warnings="-register-all"]
Inductive value : Type :=
| Atom (k : Kind) (repr : string)
| Seq (array : bool) (elemKind : Kind) (elems : list value).

Definition kindOf (v : value) : Kind :=
  match v with
  | Atom k _ => k
  | Seq true _ _ => Array
  | Seq false _ _ => Slice
  end.

(** The kinds of the first [case] of the switch in [filterHandler] *)
Definition scalarKind (k : Kind) : bool :=
  match k with
  | String_ | Bool
  | Uint | Uint16 | Uint32 | Uint64
  | Int | Int8 | Int16 | Int32 | Int64
  | Float32 | Float64 => true
  | _ => false
  end.

(** The element kinds [filterHandler] refuses in a slice or array *)
Definition unsupportedElemKind (k : Kind) : bool :=
  match k with
  | Invalid | Chan | Func | Map | Ptr | Uintptr | UnsafePointer
  | Complex64 | Complex128 => true
  | _ => false
  end.

(** ** The [Operator] interface and its MySQL implementation *)

Class Operator : Type := { OperatorSQL : string -> string }.

Module mysql.

Definition operators : list (string * string) :=
  [ ("exact", "=");
    ("exclude", "!=");
    ("iexact", "LIKE");
    ("contains", "LIKE BINARY");
    ("icontains", "LIKE");
    ("gt", ">");
    ("gte", ">=");
    ("lt", "<");
    ("lte", "<=");
    ("startswith", "LIKE BINARY");
    ("endswith", "LIKE BINARY");
    ("istartswith", "LIKE");
    ("iendswith", "LIKE");
    ("in", "IN");
    ("between", "BETWEEN") ].

(** Indexing a Go map with a key it does not hold gives the zero value. *)
Fixpoint index (m : list (string * string)) (k : string) : string :=
  match m with
  | [] => ""
  | (k', v) :: r => if String.eqb k k' then v else index r k
  end.

Definition OperatorSQL (operator : string) : string := index operators operator.

Definition NewOperator : Operator := Build_Operator OperatorSQL.

End mysql.

(** ** The query set *)

Definition ANDOR : list string := ["AND"; "OR"].
Definition BLANKNOT : list string := [""; "NOT"].

(** [arr[i]]: an index outside the array panics. *)
Definition at_ (arr : list string) (i : nat) : result string :=
  match nth_error arr i with
  | Some s => Ok s
  | None => Panic "runtime error: index out of range"
  end.

Record queryFilter : Type := { SQL : string; Args : list value }.

Record QuerySetImpl : Type := {
  operator_ : Operator;
  selectColumn : string;
  whereCondition : queryFilter;
  filterCondition : list queryFilter;
  excludeCondition : list queryFilter;
  orderBySQL : string;
  limitSQL : string;
  groupSQL : string
}.

Definition NewQuerySet (op : Operator) : QuerySetImpl :=
  {| operator_ := op;
     selectColumn := "";
     whereCondition := {| SQL := ""; Args := [] |};
     filterCondition := [];
     excludeCondition := [];
     orderBySQL := "";
     limitSQL := "";
     groupSQL := "" |}.

(** *** filterHandler

    The batch is the sequence of key and value pairs in the order the
    [range] loop visits them. *)

Record loopState : Type := {
  operator : string;
  flag : nat;
  filterSql : string;
  filterArgs : list value
}.

(** The head of the loop body: split the key, set [fieldName], and set
    [operator] and [flag] when the key has one, two or three parts.  Both
    variables are declared outside the loop, so a key with more parts leaves
    them as the previous iteration set them. *)
Definition lookups (fieldLookups : string) (st : loopState)
  : result (string * string * nat) :=
  match Split fieldLookups "__" with
  | [] => Panic "runtime error: index out of range"
  | [fieldName] => Ok (fieldName, "exact", 0)
  | [fieldName; fl1] =>
      if negb (fl1 =? "Q") then Ok (fieldName, fl1, 0)
      else Ok (fieldName, "exact", 1)
  | [fieldName; fl1; fl2] =>
      if fl2 =? "Q" then Ok (fieldName, fl1, 1)
      else Panic ("FieldLookups [" ++ fieldLookups ++ "] is invalid.")
  | fieldName :: _ => Ok (fieldName, operator st, flag st)
  end.

Definition sliceFragment (fieldName operator op : string) (flag len : nat)
  : result string :=
  if (operator =? "exact") || (operator =? "exclude")
     || (operator =? "contains") || (operator =? "icontains")
  then
    c <- at_ ANDOR flag ;;
    Ok (" ( " ++ fieldName ++ " " ++ op ++ " ?"
          ++ Repeat (" " ++ c ++ " " ++ fieldName ++ " " ++ op ++ " ?") (len - 1)
          ++ " ) ")
  else if operator =? "in" then
    n <- at_ BLANKNOT flag ;;
    Ok (" " ++ fieldName ++ " " ++ n ++ " " ++ op ++ " (?" ++ Repeat ",?" (len - 1) ++ ") ")
  else if operator =? "between" then
    n <- at_ BLANKNOT flag ;;
    Ok (" " ++ fieldName ++ " " ++ n ++ " " ++ op ++ " ? AND ? ")
  else Panic ("Unsupported slice operator [" ++ operator ++ "].").

Definition filterPair (P : Operator) (st : loopState) (kv : string * value)
  : result loopState :=
  let (fieldLookups, filedValue) := kv in
  parsed <- lookups fieldLookups st ;;
  let '(fieldName, operator, flag) := parsed in
  let op := OperatorSQL operator in
  match filedValue with
  | Atom k _ =>
      if scalarKind k then
        if (operator =? "in") || (operator =? "between") then
          Panic ("Operator [" ++ operator ++ "] must be used with slice or array.")
        else
          c <- at_ ANDOR flag ;;
          Ok {| operator := operator;
                flag := flag;
                filterSql := filterSql st ++ c ++ " `" ++ fieldName ++ "`" ++ op ++ "? ";
                filterArgs := (filterArgs st ++ [filedValue])%list |}
      else
        Panic ("Unsupported data type [" ++ Kind_String k ++ "] for key ["
                 ++ fieldLookups ++ "].")
  | Seq _ kind elems =>
      if (List.length elems =? 0)%nat then
        Panic ("Empty slice or array for key [" ++ fieldLookups ++ "].")
      else if unsupportedElemKind kind then
        Panic ("Unsupported slice type [" ++ Kind_String kind ++ "] for key ["
                 ++ fieldLookups ++ "].")
      else
        c <- at_ ANDOR flag ;;
        frag <- sliceFragment fieldName operator op flag (List.length elems) ;;
        Ok {| operator := operator;
              flag := flag;
              filterSql := filterSql st ++ c ++ frag;
              filterArgs := (filterArgs st ++ elems)%list |}
  end.

Fixpoint filterLoop (P : Operator) (filter : list (string * value)) (st : loopState)
  : result loopState :=
  match filter with
  | [] => Ok st
  | kv :: rest => st' <- filterPair P st kv ;; filterLoop P rest st'
  end.

Definition filterHandler (P : Operator) (filter : list (string * value))
  : result (string * list value) :=
  if (List.length filter =? 0)%nat then Ok ("", [])
  else
    st <- filterLoop P filter
            {| operator := ""; flag := 0; filterSql := ""; filterArgs := [] |} ;;
    let sql := TrimSpace (filterSql st) in
    if negb (sql =? "") then
      if HasPrefix sql "OR" then
        sql' <- sliceFrom sql 3 ;; Ok (sql', filterArgs st)
      else if HasPrefix sql "AND" then
        sql' <- sliceFrom sql 4 ;; Ok (sql', filterArgs st)
      else Panic ("Generate sql error. " ++ sql)
    else Ok (sql, filterArgs st).

(** *** The builder methods

    Each method mutates the receiver [p] and returns it.  A method is a
    function from the receiver before the call to the receiver after it,
    paired with the outcome when the method can panic. *)

Definition M (A : Type) : Type := QuerySetImpl -> QuerySetImpl * result A.

Definition set_whereCondition (p : QuerySetImpl) (w : queryFilter) : QuerySetImpl :=
  {| operator_ := operator_ p; selectColumn := selectColumn p;
     whereCondition := w;
     filterCondition := filterCondition p; excludeCondition := excludeCondition p;
     orderBySQL := orderBySQL p; limitSQL := limitSQL p; groupSQL := groupSQL p |}.

Definition set_filterCondition (p : QuerySetImpl) (l : list queryFilter) : QuerySetImpl :=
  {| operator_ := operator_ p; selectColumn := selectColumn p;
     whereCondition := whereCondition p;
     filterCondition := l; excludeCondition := excludeCondition p;
     orderBySQL := orderBySQL p; limitSQL := limitSQL p; groupSQL := groupSQL p |}.

Definition set_excludeCondition (p : QuerySetImpl) (l : list queryFilter) : QuerySetImpl :=
  {| operator_ := operator_ p; selectColumn := selectColumn p;
     whereCondition := whereCondition p;
     filterCondition := filterCondition p; excludeCondition := l;
     orderBySQL := orderBySQL p; limitSQL := limitSQL p; groupSQL := groupSQL p |}.

Definition set_orderBySQL (p : QuerySetImpl) (s : string) : QuerySetImpl :=
  {| operator_ := operator_ p; selectColumn := selectColumn p;
     whereCondition := whereCondition p;
     filterCondition := filterCondition p; excludeCondition := excludeCondition p;
     orderBySQL := s; limitSQL := limitSQL p; groupSQL := groupSQL p |}.

Definition set_selectColumn (p : QuerySetImpl) (s : string) : QuerySetImpl :=
  {| operator_ := operator_ p; selectColumn := s;
     whereCondition := whereCondition p;
     filterCondition := filterCondition p; excludeCondition := excludeCondition p;
     orderBySQL := orderBySQL p; limitSQL := limitSQL p; groupSQL := groupSQL p |}.

Definition set_limitSQL (p : QuerySetImpl) (s : string) : QuerySetImpl :=
  {| operator_ := operator_ p; selectColumn := selectColumn p;
     whereCondition := whereCondition p;
     filterCondition := filterCondition p; excludeCondition := excludeCondition p;
     orderBySQL := orderBySQL p; limitSQL := s; groupSQL := groupSQL p |}.

Definition set_groupSQL (p : QuerySetImpl) (s : string) : QuerySetImpl :=
  {| operator_ := operator_ p; selectColumn := selectColumn p;
     whereCondition := whereCondition p;
     filterCondition := filterCondition p; excludeCondition := excludeCondition p;
     orderBySQL := orderBySQL p; limitSQL := limitSQL p; groupSQL := s |}.

Definition WhereToSQL (cond : string) (args : list value) (p : QuerySetImpl)
  : QuerySetImpl :=
  set_whereCondition p {| SQL := cond; Args := args |}.

Definition FilterToSQL (filter : list (string * value)) : M unit := fun p =>
  match filterHandler (operator_ p) filter with
  | Panic msg => (p, Panic msg)
  | Ok (filterSQL, filterArgs) =>
      if filterSQL =? "" then (p, Ok tt)
      else
        (set_filterCondition p
           (filterCondition p ++ [{| SQL := filterSQL; Args := filterArgs |}])%list,
         Ok tt)
  end.

Definition ExcludeToSQL (exclude : list (string * value)) : M unit := fun p =>
  match filterHandler (operator_ p) exclude with
  | Panic msg => (p, Panic msg)
  | Ok (excludeSQL, excludeArgs) =>
      if excludeSQL =? "" then (p, Ok tt)
      else
        (set_excludeCondition p
           (excludeCondition p ++ [{| SQL := excludeSQL; Args := excludeArgs |}])%list,
         Ok tt)
  end.

(** The two loops of [GetQuerySet], each appending to [sql] and [args] *)
Definition appendConditions (pre : string) (conds : list queryFilter)
  (acc : string * list value) : string * list value :=
  fold_left
    (fun (a : string * list value) (v : queryFilter) =>
       (fst a ++ pre ++ SQL v ++ ") AND ", (snd a ++ Args v)%list))
    conds acc.

Definition GetQuerySet (p : QuerySetImpl) : result (string * list value) :=
  if negb (SQL (whereCondition p) =? "") then
    Ok (" WHERE " ++ SQL (whereCondition p), Args (whereCondition p))
  else if (List.length (filterCondition p) =? 0)%nat
          && (List.length (excludeCondition p) =? 0)%nat then
    Ok ("", [])
  else
    let a := appendConditions "(" (filterCondition p) ("", []) in
    let a := appendConditions "NOT (" (excludeCondition p) a in
    let sql := fst a in
    if (String.length sql <? 4)%nat then
      Panic "runtime error: slice bounds out of range"
    else
      cut <- sliceTo sql (String.length sql - 4) ;;
      Ok (" WHERE " ++ TrimSpace cut, snd a).

Definition GetOrderBySQL (p : QuerySetImpl) : string :=
  if HasPrefix (orderBySQL p) "," then " ORDER BY" ++ drop 1 (orderBySQL p)
  else "".

(** The loop of [OrderByToSQL]: [asc] is declared before the loop and only
    ever set to false in it. *)
Fixpoint orderByLoop (orderBy : list string) (asc : bool) (sql : string) : string :=
  match orderBy with
  | [] => sql
  | by_ :: rest =>
      let sql := sql ++ "," in
      let by_ := TrimSpace by_ in
      let minus := HasPrefix by_ "-" in
      let by_ := if minus then drop 1 by_ else by_ in
      let asc := if minus then false else asc in
      let sql :=
        if asc then sql ++ " `" ++ by_ ++ "` ASC"
        else sql ++ " `" ++ by_ ++ "` DESC" in
      orderByLoop rest asc sql
  end.

Definition OrderByToSQL (orderBy : list string) (p : QuerySetImpl) : QuerySetImpl :=
  if (List.length orderBy <=? 0)%nat then p
  else
    let sql := orderByLoop orderBy true (orderBySQL p) in
    let sql :=
      if HasSuffix sql "," then take (String.length sql - 1) sql else sql in
    set_orderBySQL p sql.

Definition GetLimitSQL (p : QuerySetImpl) : string := limitSQL p.

(** [int64] arithmetic wraps around. *)
Definition int64 (z : Z) : Z := ((z + 2 ^ 63) mod 2 ^ 64 - 2 ^ 63)%Z.

(** [%d] *)
Definition formatInt (z : Z) : string := NilZero.string_of_int (Z.to_int z).

Definition LimitToSQL (pageSize pageNum : Z) (p : QuerySetImpl) : QuerySetImpl :=
  if ((pageSize >? 0) && (pageNum >? 0))%Z then
    let offset := int64 (int64 (pageNum - 1) * pageSize) in
    let limit := pageSize in
    set_limitSQL p (" LIMIT " ++ formatInt limit ++ " OFFSET " ++ formatInt offset)
  else p.

Definition SelectToSQL (columns : list string) (p : QuerySetImpl) : QuerySetImpl :=
  set_selectColumn p (Join columns ",").

Definition GetSelectSQL (p : QuerySetImpl) : string :=
  if selectColumn p =? "" then "*" else selectColumn p.

Definition GroupByToSQL (groupBy : list string) (p : QuerySetImpl) : QuerySetImpl :=
  set_groupSQL p ("`" ++ Join groupBy "`,`" ++ "`").

Definition GetGroupBySQL (p : QuerySetImpl) : string :=
  if negb (groupSQL p =? "") then " GROUP BY " ++ groupSQL p else "".

(** A chain of builder calls on one query set *)
Inductive call : Type :=
| CallFilter (filter : list (string * value))
| CallExclude (exclude : list (string * value))
| CallWhere (cond : string) (args : list value)
| CallOrderBy (orderBy : list string)
| CallLimit (pageSize pageNum : Z)
| CallSelect (columns : list string)
| CallGroupBy (groupBy : list string).

Definition perform (c : call) : M unit :=
  match c with
  | CallFilter filter => FilterToSQL filter
  | CallExclude exclude => ExcludeToSQL exclude
  | CallWhere cond args => fun p => (WhereToSQL cond args p, Ok tt)
  | CallOrderBy orderBy => fun p => (OrderByToSQL orderBy p, Ok tt)
  | CallLimit pageSize pageNum => fun p => (LimitToSQL pageSize pageNum p, Ok tt)
  | CallSelect columns => fun p => (SelectToSQL columns p, Ok tt)
  | CallGroupBy groupBy => fun p => (GroupByToSQL groupBy p, Ok tt)
  end.

(** The calls run in order; a panic stops the chain. *)
Fixpoint chain (cs : list call) : M unit := fun p =>
  match cs with
  | [] => (p, Ok tt)
  | c :: rest =>
      match perform c p with
      | (p', Ok _) => chain rest p'
      | (p', Panic msg) => (p', Panic msg)
      end
  end.

(** ** The controller (mysql/handler.go): the builder methods of [Impl]

    The methods take their argument as [any] and look at its kind and type;
    they write their complaints to the log.  A run of a method gives the
    controller after it, the lines logged, and the outcome. *)

Module norm.

Record Impl : Type := {
  table : string;
  fieldNameMap : list string;
  fieldRows : string;
  qs : QuerySetImpl
}.

Definition set_qs (m : Impl) (q : QuerySetImpl) : Impl :=
  {| table := table m; fieldNameMap := fieldNameMap m;
     fieldRows := fieldRows m; qs := q |}.

(** [_, ok := m.fieldNameMap[k]] *)
Definition has (m : Impl) (k : string) : bool :=
  existsb (String.eqb k) (fieldNameMap m).

(** An argument of type [any], as the methods tell them apart: a
    [[]string]; some other slice or array; a [string]; a value of a named
    type whose kind is [String]; anything else. *)
Inductive arg : Type :=
| Strings (l : list string)
| OtherSeq
| Str (s : string)
| NamedStr (typeName s : string)
| Other.

Record ran : Type := {
  after : Impl;
  logged : list string;
  outcome : result unit
}.

Definition done (m : Impl) (lines : list string) : ran :=
  {| after := m; logged := lines; outcome := Ok tt |}.

(** The switch on [v.Kind()] that opens [OrderBy], [Select] and [GroupBy]:
    the strings to go on with, or the return that ends the method, with
    the line it logs if any.  The assertion [x.(string)] panics on a named
    string type. *)
Definition strings (wrongSeq wrongKind : string) (a : arg)
  : result (option (list string) * list string) :=
  match a with
  | Strings l =>
      if (List.length l =? 0)%nat then Ok (None, []) else Ok (Some l, [])
  | OtherSeq => Ok (None, [wrongSeq])
  | Str s => if s =? "" then Ok (None, []) else Ok (Some (Split s ","), [])
  | NamedStr typeName _ =>
      Panic ("interface conversion: interface {} is " ++ typeName ++ ", not string")
  | Other => Ok (None, [wrongKind])
  end.

(** The loop of [OrderBy]: the entries, trimmed, whose column is a field,
    and a line for each of the others *)
Fixpoint orderByChecked (m : Impl) (orderBySlice : list string)
  : list string * list string :=
  match orderBySlice with
  | [] => ([], [])
  | by_ :: rest =>
      let by_ := TrimSpace by_ in
      let (checked, lines) := orderByChecked m rest in
      if HasPrefix by_ "-" then
        if has m (drop 1 by_) then (by_ :: checked, lines)
        else (checked, ("Order by key [" ++ drop 1 by_ ++ "] not exist.") :: lines)
      else
        if has m by_ then (by_ :: checked, lines)
        else (checked, ("Order by key [" ++ by_ ++ "] not exist.") :: lines)
  end.

Definition OrderBy (orderBy : arg) (m : Impl) : ran :=
  match strings "Order by type should be string slice or string array"
          "Order by type should be string, string slice or string array ." orderBy with
  | Panic msg => {| after := m; logged := []; outcome := Panic msg |}
  | Ok (None, lines) => done m lines
  | Ok (Some orderBySlice, _) =>
      let (checked, lines) := orderByChecked m orderBySlice in
      done (set_qs m (OrderByToSQL checked (qs m))) lines
  end.

Definition Limit (pageSize pageNum : Z) (m : Impl) : ran :=
  done (set_qs m (LimitToSQL pageSize pageNum (qs m))) [].

Definition Select (columns : arg) (m : Impl) : ran :=
  match strings "Select columns type should be string slice or string array."
          "Select type should be string, string slice or string array ." columns with
  | Panic msg => {| after := m; logged := []; outcome := Panic msg |}
  | Ok (None, lines) => done m lines
  | Ok (Some selectSlice, _) => done (set_qs m (SelectToSQL selectSlice (qs m))) []
  end.

(** [Where] hands its [args] slice to the variadic [WhereToSQL] as one
    argument, without [...]: the override's arguments are one element, the
    [[]any] itself. *)
Definition Where (cond : string) (args : list value) (m : Impl) : ran :=
  done (set_qs m (WhereToSQL cond [Seq false Interface args] (qs m))) [].

(** The loop of [GroupBy] *)
Fixpoint groupByChecked (m : Impl) (groupBySlice : list string)
  : list string * list string :=
  match groupBySlice with
  | [] => ([], [])
  | by_ :: rest =>
      let by_ := TrimSpace by_ in
      let (checked, lines) := groupByChecked m rest in
      if has m by_ then (by_ :: checked, lines)
      else (checked, ("Group by key [" ++ by_ ++ "] not exist.") :: lines)
  end.

Definition GroupBy (groupBy : arg) (m : Impl) : ran :=
  match strings "Group by type should be string slice or string array"
          "Group by type should be string, string slice or string array ." groupBy with
  | Panic msg => {| after := m; logged := []; outcome := Panic msg |}
  | Ok (None, lines) => done m lines
  | Ok (Some groupBySlice, _) =>
      let (checked, lines) := groupByChecked m groupBySlice in
      done (set_qs m (GroupByToSQL checked (qs m))) lines
  end.

Definition Filter (filter : list (string * value)) (m : Impl) : ran :=
  let (q, r) := FilterToSQL filter (qs m) in
  {| after := set_qs m q; logged := []; outcome := r |}.

Definition Exclude (exclude : list (string * value)) (m : Impl) : ran :=
  let (q, r) := ExcludeToSQL exclude (qs m) in
  {| after := set_qs m q; logged := []; outcome := r |}.

Definition Reset (m : Impl) : ran :=
  done (set_qs m (NewQuerySet mysql.NewOperator)) [].

(** [strings.TrimRight(s, ",")] *)
Fixpoint dropCommas (s : string) : string :=
  match s with
  | String "," r => dropCommas r
  | _ => s
  end.

Definition TrimRightCommas (s : string) : string := rev (dropCommas (rev s)).

(** The loop of [values]: the text built and the lines logged *)
Fixpoint valueRows (m : Impl) (values : list string) (rows : string)
  : string * list string :=
  match values with
  | [] => (rows, [])
  | v :: rest =>
      if negb (has m v) then
        let (rows', lines) := valueRows m rest rows in
        (rows', ("Key [" ++ v ++ "] not exist.") :: lines)
      else valueRows m rest (rows ++ "`" ++ v ++ "`,")
  end.

Definition values (m : Impl) (vs : list string) : string * list string :=
  let (rows, lines) := valueRows m vs "" in
  (TrimRightCommas rows, lines).

(** [shiftName]: the [range] loop decodes the string rune by rune.  A
    byte sequence that is no valid UTF-8 encoding gives the rune U+FFFD and
    moves on by one byte; [string(c)] writes a valid rune back as the bytes
    it came from, and U+FFFD as EF BF BD. *)
Definition cont (c : ascii) : bool := ((128 <=? byte c) && (byte c <=? 191))%N.

Definition rune2 (c1 c2 : ascii) : bool :=
  ((194 <=? byte c1) && (byte c1 <=? 223))%N && cont c2.

Definition rune3 (c1 c2 c3 : ascii) : bool :=
  let b1 := byte c1 in
  let b2 := byte c2 in
  (((b1 =? 224) && (160 <=? b2) && (b2 <=? 191))
   || (((225 <=? b1) && (b1 <=? 236)) || ((238 <=? b1) && (b1 <=? 239))) && cont c2
   || ((b1 =? 237) && (128 <=? b2) && (b2 <=? 159)))%N
  && cont c3.

Definition rune4 (c1 c2 c3 c4 : ascii) : bool :=
  let b1 := byte c1 in
  let b2 := byte c2 in
  (((b1 =? 240) && (144 <=? b2) && (b2 <=? 191))
   || ((241 <=? b1) && (b1 <=? 243)) && cont c2
   || ((b1 =? 244) && (128 <=? b2) && (b2 <=? 143)))%N
  && cont c3 && cont c4.

Definition upper (c : ascii) : bool := ((65 <=? byte c) && (byte c <=? 90))%N.

Definition replacement : string :=
  String (ascii_of_N 239) (String (ascii_of_N 191) (String (ascii_of_N 189) "")).

(** [atStart] tells whether the index [i] of the rune is 0. *)
Fixpoint shiftFrom (atStart : bool) (s : string) : string :=
  match s with
  | EmptyString => ""
  | String c1 r1 =>
      if (byte c1 <? 128)%N then
        (if upper c1
         then (if atStart then "" else "_") ++ String (ascii_of_N (byte c1 + 32)) ""
         else String c1 "")
        ++ shiftFrom false r1
      else
        match r1 with
        | EmptyString => replacement ++ shiftFrom false r1
        | String c2 r2 =>
            if rune2 c1 c2 then String c1 (String c2 (shiftFrom false r2))
            else
              match r2 with
              | EmptyString => replacement ++ shiftFrom false r1
              | String c3 r3 =>
                  if rune3 c1 c2 c3
                  then String c1 (String c2 (String c3 (shiftFrom false r3)))
                  else
                    match r3 with
                    | EmptyString => replacement ++ shiftFrom false r1
                    | String c4 r4 =>
                        if rune4 c1 c2 c3 c4
                        then String c1 (String c2 (String c3 (String c4
                                                      (shiftFrom false r4))))
                        else replacement ++ shiftFrom false r1
                    end
              end
        end
  end.

Definition shiftName (s : string) : string := "`" ++ shiftFrom true s ++ "`".

End norm.

(** ** Vocabulary of the statements *)

(** The bytes [?] of a fragment *)
Fixpoint countPlaceholders (s : string) : nat :=
  match s with
  | EmptyString => 0
  | String c r => (if Ascii.eqb c "?" then 1 else 0) + countPlaceholders r
  end.

Fixpoint catAll (l : list string) : string :=
  match l with
  | [] => ""
  | x :: r => x ++ catAll r
  end.

(** The operators with a case in the switch of the slice branch *)
Definition sliceOperator (operator : string) : bool :=
  (operator =? "exact") || (operator =? "exclude")
  || (operator =? "contains") || (operator =? "icontains")
  || (operator =? "in") || (operator =? "between").

(** A value does not fit its operator: a scalar with [in] or [between], an
    empty slice or array, one whose elements are of a refused kind, or one
    with an operator that takes no slice. *)
Definition incompatible (operator : string) (v : value) : bool :=
  match v with
  | Atom k _ => scalarKind k && ((operator =? "in") || (operator =? "between"))
  | Seq _ kind elems =>
      (List.length elems =? 0)%nat || unsupportedElemKind kind
      || negb (sliceOperator operator)
  end.

(** Two values of one shape differ at most in what they hold. *)
Inductive sameShape : value -> value -> Prop :=
| sameAtom k r r' : sameShape (Atom k r) (Atom k r')
| sameSeq a kind xs ys :
    List.length xs = List.length ys -> sameShape (Seq a kind xs) (Seq a kind ys).

Definition samePair (kv kv' : string * value) : Prop :=
  fst kv = fst kv' /\ sameShape (snd kv) (snd kv').

(** The SQL text of an outcome, or the panic it raised *)
Definition text {A : Type} (r : result (string * A)) : result string :=
  match r with
  | Ok (sql, _) => Ok sql
  | Panic msg => Panic msg
  end.

Definition st0 : loopState :=
  {| operator := ""; flag := 0; filterSql := ""; filterArgs := [] |}.

(** A scalar pair the loop accepts: its key resolves to [fieldName],
    [operator] and [flag], and the operator takes a scalar. *)
Record scalarTerm : Type := {
  tField : string;
  tOperator : string;
  tFlag : nat
}.

Definition accepts (kv : string * value) (t : scalarTerm) : Prop :=
  (List.length (Split (fst kv) "__") <= 3)%nat
  /\ lookups (fst kv) st0 = Ok (tField t, tOperator t, tFlag t)
  /\ (exists k r, snd kv = Atom k r /\ scalarKind k = true)
  /\ (tOperator t =? "in") || (tOperator t =? "between") = false.

Definition quoted (P : Operator) (t : scalarTerm) : string :=
  "`" ++ tField t ++ "`" ++ OperatorSQL (tOperator t) ++ "?".

Definition joined (P : Operator) (t : scalarTerm) : string :=
  " " ++ nth (tFlag t) ANDOR "" ++ " " ++ quoted P t.

Definition scalarFragment (P : Operator) (ts : list scalarTerm) : string :=
  match ts with
  | [] => ""
  | t :: rest => quoted P t ++ catAll (map (joined P) rest)
  end.

Definition includeTerm (v : queryFilter) : string := "(" ++ SQL v ++ ")".
Definition excludeTerm (v : queryFilter) : string := "NOT (" ++ SQL v ++ ")".

Definition isWhere (c : call) : bool :=
  match c with
  | CallWhere _ _ => true
  | _ => false
  end.

Definition q0 : QuerySetImpl := NewQuerySet mysql.NewOperator.

(** The arguments a pair contributes: the scalar itself, or the elements of
    the slice or array in order *)
Definition valuesOf (v : value) : list value :=
  match v with
  | Atom _ _ => [v]
  | Seq _ _ elems => elems
  end.

(** A pair whose placeholders can be counted: its key has at most three
    parts and no [?], and if it resolves to [between] over a slice or array,
    that holds exactly two elements. *)
Definition countable (kv : string * value) : Prop :=
  (List.length (Split (fst kv) "__") <= 3)%nat
  /\ countPlaceholders (fst kv) = 0
  /\ (forall f fl a kind elems,
         lookups (fst kv) st0 = Ok (f, "between", fl) ->
         snd kv = Seq a kind elems -> List.length elems = 2).

Definition balanced (v : queryFilter) : Prop :=
  countPlaceholders (SQL v) = List.length (Args v).

(** A call that keeps placeholders and arguments in step: a batch of
    countable pairs, or a raw condition with one argument for each [?] *)
Definition steady (c : call) : Prop :=
  match c with
  | CallFilter filter => Forall countable filter
  | CallExclude exclude => Forall countable exclude
  | CallWhere cond args => countPlaceholders cond = List.length args
  | _ => True
  end.

(** A query set all of whose conditions are balanced *)
Definition allBalanced (p : QuerySetImpl) : Prop :=
  balanced (whereCondition p)
  /\ Forall balanced (filterCondition p)
  /\ Forall balanced (excludeCondition p).

(** An ORDER BY entry as the loop reads it: trimmed, descending when it
    then starts with [-], the column being what follows the [-] *)
Definition descending (by_ : string) : bool := HasPrefix (TrimSpace by_) "-".

Definition orderColumn (by_ : string) : string :=
  if descending by_ then drop 1 (TrimSpace by_) else TrimSpace by_.

Definition orderTerm (by_ : string) : string :=
  "`" ++ orderColumn by_ ++ (if descending by_ then "` DESC" else "` ASC").

Definition quoteColumn (c : string) : string := "`" ++ c ++ "`".

Definition inInt64 (z : Z) : Prop := (- 2 ^ 63 <= z < 2 ^ 63)%Z.

(** An entry of [OrderBy] or [GroupBy] names a field of the model. *)
Definition knownOrder (m : norm.Impl) (by_ : string) : bool :=
  norm.has m (orderColumn by_).

Definition knownGroup (m : norm.Impl) (by_ : string) : bool :=
  norm.has m (TrimSpace by_).

(** A part of a lookup key that holds no separator and cannot run into
    one: each of its underscores is followed by a byte that is no
    underscore. *)
Fixpoint keyPart (s : string) : bool :=
  match s with
  | EmptyString => true
  | String c r =>
      negb (Ascii.eqb c "_"
            && match r with
               | EmptyString => true
               | String c' _ => Ascii.eqb c' "_"
               end)
      && keyPart r
  end.

(** No ASCII capital letter *)
Fixpoint noUpper (s : string) : bool :=
  match s with
  | EmptyString => true
  | String c r => negb (norm.upper c) && noUpper r
  end.

(** ASCII bytes only, none of them a capital letter *)
Fixpoint lowerAscii (s : string) : bool :=
  match s with
  | EmptyString => true
  | String c r => (byte c <? 128)%N && negb (norm.upper c) && lowerAscii r
  end.

(** An ASCII byte that is no white space stops both scans. *)
Definition solid (c : ascii) : bool := negb (asciiSpace c) && (byte c <? 128)%N.

(** A term: a string that starts and ends with a solid byte, the shape of
    [(f)] and [NOT (f)]. *)
Definition bracketed (t : string) : Prop :=
  exists c m d, solid c = true /\ solid d = true /\ t = String c (m ++ String d "").

(** Two loop states agree on all but the arguments collected so far. *)
Definition agree (st st' : loopState) : Prop :=
  operator st = operator st' /\ flag st = flag st' /\ filterSql st = filterSql st'.

Definition agreeResult (r r' : result loopState) : Prop :=
  match r, r' with
  | Ok st, Ok st' => agree st st'
  | Panic msg, Panic msg' => msg = msg'
  | _, _ => False
  end.

(** ** Strings: append, reversal, slices *)

Section StringFacts.

Lemma append_nil_r (s : string) : s ++ "" = s.
Proof. induction s as [|c s IH]; simpl; [reflexivity | now rewrite IH]. Qed.

Lemma append_assoc (s t u : string) : (s ++ t) ++ u = s ++ t ++ u.
Proof. induction s as [|c s IH]; simpl; [reflexivity | now rewrite IH]. Qed.

Lemma length_append (s t : string) :
  String.length (s ++ t) = String.length s + String.length t.
Proof. induction s as [|c s IH]; simpl; [reflexivity | now rewrite IH]. Qed.

Lemma rev_append (s t : string) : rev (s ++ t) = rev t ++ rev s.
Proof.
  induction s as [|c s IH]; simpl.
  - now rewrite append_nil_r.
  - now rewrite IH, append_assoc.
Qed.

Lemma rev_involutive (s : string) : rev (rev s) = s.
Proof.
  induction s as [|c s IH]; simpl; [reflexivity|].
  now rewrite rev_append, IH.
Qed.

Lemma take_append (s t : string) : take (String.length s) (s ++ t) = s.
Proof. induction s as [|c s IH]; simpl; [now destruct t | now rewrite IH]. Qed.

Lemma trimLeft_solid (c : ascii) (s : string) :
  solid c = true -> trimLeft (String c s) = String c s.
Proof.
  unfold solid. intros H. apply andb_true_iff in H as [H1 H2].
  apply negb_true_iff in H1. simpl. now rewrite H1, H2.
Qed.

Lemma trimRight_solid_space (s : string) (c : ascii) :
  solid c = true ->
  trimRight (s ++ String c " ") = s ++ String c "".
Proof.
  unfold solid. intros H. apply andb_true_iff in H as [H1 H2].
  apply negb_true_iff in H1.
  unfold trimRight. rewrite rev_append.
  change (rev (String c " ")) with (String " " (String c "")).
  cbn [append trimLeftRev].
  change (asciiSpace " ") with true. cbv iota.
  rewrite H1, H2.
  change (String c (rev s)) with (rev (String c "") ++ rev s).
  now rewrite <- rev_append, rev_involutive.
Qed.

(** Trimming a string that starts and ends with such a byte, followed by
    one space, removes the space and nothing else. *)
Lemma TrimSpace_solid (c d : ascii) (s : string) :
  solid c = true -> solid d = true ->
  TrimSpace (String c (s ++ String d " ")) = String c (s ++ String d "").
Proof.
  intros Hc Hd. unfold TrimSpace.
  rewrite trimLeft_solid by exact Hc.
  change (String c (s ++ String d " ")) with (String c s ++ String d " ").
  now rewrite trimRight_solid_space.
Qed.

End StringFacts.

(** Equations between appends of strings, up to bracketing *)
Ltac assoc :=
  repeat progress (simpl; rewrite ?append_assoc, ?append_nil_r); try reflexivity.

(** ** The operator table *)

Lemma index_absent (m : list (string * string)) (k : string) :
  ~ In k (map fst m) -> mysql.index m k = "".
Proof.
  induction m as [|[k' v] m IH]; simpl; intros H; [reflexivity|].
  destruct (String.eqb_spec k k') as [->|_].
  - elim H. now left.
  - apply IH. intros Hin. apply H. now right.
Qed.

(** A keyword outside the table translates to the empty string: the
    translation itself never fails. *)
Lemma OperatorSQL_unknown (keyword : string) :
  ~ In keyword (map fst mysql.operators) -> mysql.OperatorSQL keyword = "".
Proof. apply index_absent. Qed.

(** C2: for a keyword outside the builtin table the translation does not
    fail: [OperatorSQL] returns the empty string, and [filterHandler] on the
    pair [age__foo: 18] returns normally with the fragment [`age`?], the
    empty operator embedded between the column and the placeholder. *)
Theorem unknown_keyword_yields_empty_operator :
  mysql.OperatorSQL "foo" = ""
  /\ filterHandler mysql.NewOperator [("age__foo", Atom Int "18")]
     = Ok ("`age`?", [Atom Int "18"]).
Proof. split; reflexivity. Qed.

(** ** Lookup keys *)

(** One, two and three parts: the operator and the flag the key sets, and
    the panic of a third part other than [Q], whatever the loop held. *)
Lemma lookups_cases (key : string) (st : loopState) :
  (forall f, Split key "__" = [f] -> lookups key st = Ok (f, "exact", 0))
  /\ (forall f o, Split key "__" = [f; o] -> o <> "Q" -> lookups key st = Ok (f, o, 0))
  /\ (forall f, Split key "__" = [f; "Q"] -> lookups key st = Ok (f, "exact", 1))
  /\ (forall f o, Split key "__" = [f; o; "Q"] -> lookups key st = Ok (f, o, 1))
  /\ (forall f o q, Split key "__" = [f; o; q] -> q <> "Q" -> panics (lookups key st)).
Proof.
  unfold lookups. repeat split.
  - intros f ->. reflexivity.
  - intros f o -> Ho. apply String.eqb_neq in Ho. now rewrite Ho.
  - intros f ->. reflexivity.
  - intros f o ->. reflexivity.
  - intros f o q -> Hq. apply String.eqb_neq in Hq. rewrite Hq.
    eexists. reflexivity.
Qed.

(** A key of at most three parts resolves without looking at the loop's
    variables. *)
Lemma lookups_short (key : string) (st st' : loopState) :
  (List.length (Split key "__") <= 3)%nat -> lookups key st = lookups key st'.
Proof.
  unfold lookups.
  destruct (Split key "__") as [|a [|b [|c [|d l]]]]; simpl; intros H;
    try reflexivity; lia.
Qed.

(** C5: a key of four parts is not refused.  [a__b__c__d] matches none of
    the three length tests, so [operator] and [flag] keep what they held:
    alone in a batch the pair compiles with the empty operator, and after
    [a__gt] it compiles as a second [gt] comparison. *)
Theorem four_part_key_is_not_rejected :
  Split "a__b__c__d" "__" = ["a"; "b"; "c"; "d"]
  /\ filterHandler mysql.NewOperator [("a__b__c__d", Atom Int "1")]
     = Ok ("`a`?", [Atom Int "1"])
  /\ filterHandler mysql.NewOperator
       [("x__gt", Atom Int "0"); ("a__b__c__d", Atom Int "1")]
     = Ok ("`x`>? AND `a`>?", [Atom Int "0"; Atom Int "1"]).
Proof. repeat split; reflexivity. Qed.

(** ** Placeholders and arguments *)

(** C1: [between] with a collection of three elements compiles, and the
    fragment holds two placeholders for three arguments. *)
Theorem between_three_elements_mismatch :
  let batch := [("price__between",
                 Seq false Int [Atom Int "10"; Atom Int "20"; Atom Int "30"])] in
  filterHandler mysql.NewOperator batch
  = Ok ("price  BETWEEN ? AND ?", [Atom Int "10"; Atom Int "20"; Atom Int "30"])
  /\ countPlaceholders "price  BETWEEN ? AND ?" = 2
  /\ List.length [Atom Int "10"; Atom Int "20"; Atom Int "30"] = 3.
Proof. repeat split; reflexivity. Qed.

(** ** ORDER BY, GROUP BY *)

Lemma OrderByToSQL_nil (p : QuerySetImpl) : OrderByToSQL [] p = p.
Proof. reflexivity. Qed.

(** C8: in [OrderByToSQL ["-a"; "b"]] the column [b] has no leading [-]
    and is rendered DESC: [asc], once false, stays false for the rest of
    the call. *)
Theorem OrderBy_descending_sticks :
  GetOrderBySQL (OrderByToSQL ["-a"; "b"] q0) = " ORDER BY `a` DESC, `b` DESC".
Proof. reflexivity. Qed.

Lemma GroupByToSQL_replaces (g g' : list string) (p : QuerySetImpl) :
  GroupByToSQL g (GroupByToSQL g' p) = GroupByToSQL g p.
Proof. reflexivity. Qed.

(** C9: after [GroupByToSQL []] the group-by output is a clause over one
    empty quoted identifier, not the empty string. *)
Theorem GroupBy_empty_list_emits_clause :
  groupSQL (GroupByToSQL [] q0) = "``"
  /\ GetGroupBySQL (GroupByToSQL [] q0) = " GROUP BY ``".
Proof. split; reflexivity. Qed.

(** ** The raw override *)

Lemma FilterToSQL_where (filter : list (string * value)) (p : QuerySetImpl) :
  whereCondition (fst (FilterToSQL filter p)) = whereCondition p.
Proof.
  unfold FilterToSQL.
  destruct (filterHandler (operator_ p) filter) as [[sql args]|msg]; simpl;
    [destruct (sql =? "")|]; reflexivity.
Qed.

Lemma ExcludeToSQL_where (exclude : list (string * value)) (p : QuerySetImpl) :
  whereCondition (fst (ExcludeToSQL exclude p)) = whereCondition p.
Proof.
  unfold ExcludeToSQL.
  destruct (filterHandler (operator_ p) exclude) as [[sql args]|msg]; simpl;
    [destruct (sql =? "")|]; reflexivity.
Qed.

Lemma perform_where (c : call) (p : QuerySetImpl) :
  isWhere c = false -> whereCondition (fst (perform c p)) = whereCondition p.
Proof.
  destruct c; simpl; intros H; try discriminate.
  - apply FilterToSQL_where.
  - apply ExcludeToSQL_where.
  - unfold OrderByToSQL. now destruct (List.length orderBy <=? 0)%nat.
  - unfold LimitToSQL. now destruct ((pageSize >? 0) && (pageNum >? 0))%Z.
  - reflexivity.
  - reflexivity.
Qed.

Lemma chain_where (cs : list call) (p : QuerySetImpl) :
  forallb (fun c => negb (isWhere c)) cs = true ->
  whereCondition (fst (chain cs p)) = whereCondition p.
Proof.
  revert p. induction cs as [|c cs IH]; intros p H; [reflexivity|].
  simpl in H. apply andb_true_iff in H as [Hc Hcs].
  apply negb_true_iff in Hc.
  pose proof (perform_where c p Hc) as Hp.
  simpl. destruct (perform c p) as [p' [[]|msg]]; simpl in *.
  - now rewrite IH, Hp.
  - exact Hp.
Qed.

Lemma GetQuerySet_override (p : QuerySetImpl) :
  SQL (whereCondition p) <> "" ->
  GetQuerySet p = Ok (" WHERE " ++ SQL (whereCondition p), Args (whereCondition p)).
Proof.
  intros H. unfold GetQuerySet. apply String.eqb_neq in H. now rewrite H.
Qed.

(** C7, as stated, fails for the empty condition: after a [Filter] call,
    [Where("", 5)] leaves the filter's fragment and argument in the
    assembled clause. *)
Lemma Where_empty_condition_does_not_override :
  let p := fst (FilterToSQL [("a", Atom Int "1")] q0) in
  GetQuerySet (WhereToSQL "" [Atom Int "5"] p) = Ok (" WHERE (`a`=?)", [Atom Int "1"])
  /\ GetQuerySet (WhereToSQL "" [Atom Int "5"] p) <> Ok (" WHERE " ++ "", [Atom Int "5"]).
Proof. split; [reflexivity | discriminate]. Qed.

(** C7, amended: after [Where(cond, args)] with a non-empty condition, and
    whatever was accumulated before it, any chain of later calls other than
    [Where] (run to its end or to a panic) leaves the assembled clause
    [" WHERE " ++ cond] with exactly [args]. *)
Theorem Where_override_alone_determines_clause
  (p : QuerySetImpl) (cond : string) (args : list value) (later : list call) :
  cond <> "" ->
  forallb (fun c => negb (isWhere c)) later = true ->
  GetQuerySet (fst (chain later (WhereToSQL cond args p)))
  = Ok (" WHERE " ++ cond, args).
Proof.
  intros Hcond Hlater.
  rewrite GetQuerySet_override; rewrite (chain_where _ _ Hlater); simpl; auto.
Qed.

Lemma Where_override_alone_determines_clause_witness :
  GetQuerySet
    (fst (chain [CallFilter [("age__gte", Atom Int "18")];
                 CallExclude [("deleted", Atom Bool "true")]]
            (WhereToSQL "custom = ?" [Atom Int "5"]
               (fst (FilterToSQL [("a", Atom Int "1")] q0)))))
  = Ok (" WHERE " ++ "custom = ?", [Atom Int "5"]).
Proof.
  apply Where_override_alone_determines_clause; [discriminate | reflexivity].
Defined.


(** ** Assembly of the WHERE clause *)

Lemma catAll_app (l l' : list string) : catAll (l ++ l') = catAll l ++ catAll l'.
Proof.
  induction l as [|x l IH]; simpl; [reflexivity|].
  now rewrite IH, append_assoc.
Qed.

Lemma appendConditions_eq (pre : string) (conds : list queryFilter)
  (sql : string) (args : list value) :
  appendConditions pre conds (sql, args)
  = (sql ++ catAll (map (fun v => (pre ++ SQL v ++ ")") ++ " AND ") conds),
     (args ++ List.concat (map Args conds))%list).
Proof.
  unfold appendConditions. revert sql args.
  induction conds as [|v conds IH]; intros sql args; simpl.
  - now rewrite append_nil_r, List.app_nil_r.
  - rewrite IH. f_equal.
    + now rewrite !append_assoc.
    + now rewrite <- List.app_assoc.
Qed.

(** Terms each followed by [" AND "] are the terms joined by [" AND "],
    followed by one more [" AND "]. *)
Lemma catAll_Join (ts : list string) (sep : string) :
  ts <> [] -> catAll (map (fun t => t ++ sep) ts) = Join ts sep ++ sep.
Proof.
  induction ts as [|t ts IH]; intros H; [congruence|].
  destruct ts as [|t' ts].
  - simpl. now rewrite append_nil_r.
  - change (catAll (map (fun t => t ++ sep) (t :: t' :: ts)))
      with ((t ++ sep) ++ catAll (map (fun t => t ++ sep) (t' :: ts))).
    rewrite IH by discriminate.
    change (Join (t :: t' :: ts) sep) with (t ++ sep ++ Join (t' :: ts) sep).
    now rewrite !append_assoc.
Qed.

Lemma includeTerm_bracketed (v : queryFilter) : bracketed (includeTerm v).
Proof. exists "("%char, (SQL v), ")"%char. repeat split. Qed.

Lemma excludeTerm_bracketed (v : queryFilter) : bracketed (excludeTerm v).
Proof.
  exists "N"%char, ("OT (" ++ SQL v), ")"%char. repeat split.
Qed.

Lemma Join_bracketed (ts : list string) (sep : string) :
  ts <> [] -> Forall bracketed ts -> bracketed (Join ts sep).
Proof.
  induction ts as [|t ts IH]; intros H Hall; [congruence|].
  inversion Hall as [|? ? Ht Hts]; subst.
  destruct ts as [|t' ts]; [exact Ht|].
  destruct Ht as (c & m & d & Hc & Hd & ->).
  destruct (IH ltac:(discriminate) Hts) as (c' & m' & d' & Hc' & Hd' & E).
  change (Join (String c (m ++ String d "") :: t' :: ts) sep)
    with (String c (m ++ String d "") ++ sep ++ Join (t' :: ts) sep).
  rewrite E.
  exists c, (m ++ String d "" ++ sep ++ String c' m'), d'. repeat split; auto.
  simpl. rewrite !append_assoc. simpl. now rewrite !append_assoc.
Qed.

Lemma TrimSpace_bracketed (t : string) : bracketed t -> TrimSpace (t ++ " ") = t.
Proof.
  intros (c & m & d & Hc & Hd & ->).
  change (String c (m ++ String d "") ++ " ") with (String c ((m ++ String d "") ++ " ")).
  rewrite append_assoc. now apply TrimSpace_solid.
Qed.

(** C6: with no raw override and at least one include or exclude batch,
    [GetQuerySet] returns [" WHERE "] followed by the include fragments,
    each in parentheses, then the exclude fragments, each in [NOT ( )],
    joined by [" AND "] with nothing after the last term; the arguments are
    those of the include batches in order, then those of the exclude
    batches in order.  With no override and no batch it returns the empty
    clause and no argument. *)
Theorem GetQuerySet_assembles_conditions (p : QuerySetImpl) :
  SQL (whereCondition p) = "" ->
  (filterCondition p = [] /\ excludeCondition p = [] ->
   GetQuerySet p = Ok ("", []))
  /\ (filterCondition p <> [] \/ excludeCondition p <> [] ->
      GetQuerySet p
      = Ok (" WHERE "
              ++ Join (map includeTerm (filterCondition p)
                         ++ map excludeTerm (excludeCondition p)) " AND ",
            (List.concat (map Args (filterCondition p))
               ++ List.concat (map Args (excludeCondition p)))%list)).
Proof.
  intros Hw. unfold GetQuerySet. rewrite Hw. simpl negb. cbv iota. split.
  - intros [-> ->]. reflexivity.
  - intros Hne.
    remember (filterCondition p) as fs eqn:Efs.
    remember (excludeCondition p) as es eqn:Ees. clear Efs Ees.
    assert (Hlen : ((List.length fs =? 0)%nat && (List.length es =? 0)%nat) = false).
    { destruct fs, es; simpl; try reflexivity. destruct Hne; congruence. }
    rewrite Hlen.
    rewrite (appendConditions_eq "(" fs "" []).
    rewrite appendConditions_eq.
    cbn [fst snd]. change ("" ++ ?x) with x.
    rewrite <- catAll_app.
    change (map (fun v => ("(" ++ SQL v ++ ")") ++ " AND ") fs)
      with (map (fun v => includeTerm v ++ " AND ") fs).
    change (map (fun v => ("NOT (" ++ SQL v ++ ")") ++ " AND ") es)
      with (map (fun v => excludeTerm v ++ " AND ") es).
    rewrite <- (map_map includeTerm (fun t => t ++ " AND ")).
    rewrite <- (map_map excludeTerm (fun t => t ++ " AND ")).
    rewrite <- map_app.
    set (ts := (map includeTerm fs ++ map excludeTerm es)%list).
    assert (Hts : ts <> []).
    { subst ts. destruct fs, es; simpl; try discriminate; destruct Hne; congruence. }
    assert (Hb : Forall bracketed ts).
    { subst ts. apply Forall_app. split; apply Forall_forall; intros t Hin;
        apply in_map_iff in Hin as (v & <- & _).
      - apply includeTerm_bracketed.
      - apply excludeTerm_bracketed. }
    rewrite catAll_Join by exact Hts.
    set (J := Join ts " AND ").
    replace (J ++ " AND ") with ((J ++ " ") ++ "AND ") by now rewrite append_assoc.
    assert (L : String.length ((J ++ " ") ++ "AND ") = String.length (J ++ " ") + 4)
      by now rewrite (length_append (J ++ " ")).
    rewrite L.
    replace (String.length (J ++ " ") + 4 <? 4)%nat with false
      by (symmetry; apply Nat.ltb_ge; lia).
    replace (String.length (J ++ " ") + 4 - 4) with (String.length (J ++ " ")) by lia.
    unfold sliceTo. rewrite L.
    replace (String.length (J ++ " ") <=? String.length (J ++ " ") + 4)%nat with true
      by (symmetry; apply Nat.leb_le; lia).
    rewrite take_append. simpl bind.
    rewrite TrimSpace_bracketed by (apply Join_bracketed; assumption).
    reflexivity.
Qed.

Lemma GetQuerySet_assembles_conditions_witness :
  let p := fst (chain [CallFilter [("age__gte", Atom Int "18")];
                       CallExclude [("deleted__exact", Atom Bool "true")]] q0) in
  GetQuerySet p
  = Ok (" WHERE (`age`>=?) AND NOT (`deleted`=?)", [Atom Int "18"; Atom Bool "true"]).
Proof.
  intros p.
  apply (proj2 (GetQuerySet_assembles_conditions p eq_refl)).
  left. discriminate.
Defined.

(** ** Values that do not fit their operator *)

Lemma bind_panics {A B : Type} (r : result A) (k : A -> result B) :
  panics r -> panics (bind r k).
Proof. intros [msg ->]. now exists msg. Qed.

Lemma sliceFragment_refuses (fieldName operator op : string) (flag len : nat) :
  sliceOperator operator = false ->
  panics (sliceFragment fieldName operator op flag len).
Proof.
  unfold sliceOperator, sliceFragment. intros H.
  repeat (apply orb_false_iff in H as [H ?]).
  rewrite H. repeat match goal with E : (_ =? _) = false |- _ => rewrite E; clear E end.
  simpl. eexists. reflexivity.
Qed.

(** The loop body panics on such a pair, whatever it has accumulated. *)
Lemma filterPair_incompatible (P : Operator) (st : loopState)
  (key : string) (v : value) (f o : string) (fl : nat) :
  lookups key st = Ok (f, o, fl) ->
  incompatible o v = true ->
  panics (filterPair P st (key, v)).
Proof.
  intros Hl Hi. unfold filterPair. rewrite Hl. cbn [bind].
  destruct v as [k r | a kind elems]; cbn [incompatible] in Hi.
  - apply andb_true_iff in Hi as [Hk Ho]. rewrite Hk, Ho. eexists. reflexivity.
  - destruct (List.length elems =? 0)%nat; [eexists; reflexivity|].
    destruct (unsupportedElemKind kind); [eexists; reflexivity|].
    cbn [orb] in Hi. apply negb_true_iff in Hi.
    destruct (at_ ANDOR fl) as [c|msg]; cbn [bind]; [|eexists; reflexivity].
    apply bind_panics. now apply sliceFragment_refuses.
Qed.

Lemma filterLoop_incompatible (P : Operator)
  (before after : list (string * value)) (key : string) (v : value)
  (f o : string) (fl : nat) (st : loopState) :
  (List.length (Split key "__") <= 3)%nat ->
  lookups key st0 = Ok (f, o, fl) ->
  incompatible o v = true ->
  panics (filterLoop P (before ++ (key, v) :: after) st).
Proof.
  intros Hn Hl Hi. revert st.
  induction before as [|kv before IH]; intros st.
  - cbn [List.app filterLoop]. apply bind_panics.
    apply filterPair_incompatible with (f := f) (o := o) (fl := fl); [|exact Hi].
    now rewrite (lookups_short key st st0 Hn).
  - cbn [List.app filterLoop].
    destruct (filterPair P st kv) as [st'|msg]; cbn [bind].
    + apply IH.
    + now exists msg.
Qed.

Lemma filterHandler_incompatible (P : Operator)
  (before after : list (string * value)) (key : string) (v : value)
  (f o : string) (fl : nat) :
  (List.length (Split key "__") <= 3)%nat ->
  lookups key st0 = Ok (f, o, fl) ->
  incompatible o v = true ->
  panics (filterHandler P (before ++ (key, v) :: after)).
Proof.
  intros Hn Hl Hi. unfold filterHandler.
  replace (List.length (before ++ (key, v) :: after) =? 0)%nat with false
    by (symmetry; apply Nat.eqb_neq; rewrite List.length_app; simpl; lia).
  apply bind_panics. now apply filterLoop_incompatible with (f := f) (o := o) (fl := fl).
Qed.

(** C3, as stated, fails: the empty collection of [age__in] is refused by
    a panic, which no caller of [FilterToSQL] is handed as a value. *)
Lemma empty_collection_panics :
  FilterToSQL [("age__in", Seq false Int [])] q0
  = (q0, Panic "Empty slice or array for key [age__in].").
Proof. reflexivity. Qed.

(** C3, amended: when a batch holds a pair whose value does not fit the
    operator its key (of at most three parts) names, a scalar with [in] or
    [between], an empty collection, a collection of refused element kind, or
    a collection with an operator outside exact, exclude, contains,
    icontains, in and between, then [FilterToSQL] and [ExcludeToSQL] panic
    and the query set is as it was before the call: no fragment is added. *)
Theorem incompatible_value_aborts_batch (p : QuerySetImpl)
  (before after : list (string * value)) (key : string) (v : value)
  (f o : string) (fl : nat) :
  (List.length (Split key "__") <= 3)%nat ->
  lookups key st0 = Ok (f, o, fl) ->
  incompatible o v = true ->
  (exists msg, FilterToSQL (before ++ (key, v) :: after) p = (p, Panic msg))
  /\ (exists msg, ExcludeToSQL (before ++ (key, v) :: after) p = (p, Panic msg)).
Proof.
  intros Hn Hl Hi.
  destruct (filterHandler_incompatible (operator_ p) before after key v Hn Hl Hi)
    as [msg E].
  unfold FilterToSQL, ExcludeToSQL. rewrite E. split; now exists msg.
Qed.

Lemma incompatible_value_aborts_batch_witness :
  (exists msg,
     FilterToSQL [("age__gte", Atom Int "18");
                  ("name__gt", Seq false String_ [Atom String_ "x"]);
                  ("id", Atom Int "1")] q0 = (q0, Panic msg))
  /\ (exists msg,
        ExcludeToSQL [("age__gte", Atom Int "18");
                      ("name__gt", Seq false String_ [Atom String_ "x"]);
                      ("id", Atom Int "1")] q0 = (q0, Panic msg)).
Proof.
  apply (incompatible_value_aborts_batch q0
           [("age__gte", Atom Int "18")] [("id", Atom Int "1")]
           "name__gt" (Seq false String_ [Atom String_ "x"])
           (f := "name") (o := "gt") (fl := 0)).
  - simpl. lia.
  - reflexivity.
  - reflexivity.
Defined.

(** ** Fragments of scalar comparisons *)

Lemma lookups_flag (key : string) (st : loopState) (f o : string) (fl : nat) :
  (List.length (Split key "__") <= 3)%nat ->
  lookups key st = Ok (f, o, fl) -> fl = 0 \/ fl = 1.
Proof.
  unfold lookups.
  destruct (Split key "__") as [|a [|b [|c [|d l]]]]; simpl; intros Hn H.
  - discriminate.
  - injection H as _ _ <-. now left.
  - destruct (b =? "Q"); injection H as _ _ <-; [now right | now left].
  - destruct (c =? "Q"); [injection H as _ _ <-; now right | discriminate].
  - lia.
Qed.

Lemma at_ANDOR (fl : nat) : fl = 0 \/ fl = 1 -> at_ ANDOR fl = Ok (nth fl ANDOR "").
Proof. intros [-> | ->]; reflexivity. Qed.

(** What one accepted pair appends to [filterSql] *)
Lemma filterPair_accepts (P : Operator) (st : loopState)
  (kv : string * value) (t : scalarTerm) :
  accepts kv t ->
  exists st',
    filterPair P st kv = Ok st'
    /\ filterSql st' = filterSql st ++ nth (tFlag t) ANDOR "" ++ " " ++ quoted P t ++ " "
    /\ filterArgs st' = (filterArgs st ++ [snd kv])%list.
Proof.
  destruct kv as [key v]. intros (Hn & Hl & (k & r & Hv & Hk) & Ho).
  cbn [fst snd] in *. subst v.
  unfold filterPair. rewrite (lookups_short key st st0 Hn), Hl. cbn [bind].
  rewrite Hk, Ho, (at_ANDOR (lookups_flag key st0 Hn Hl)). cbn [bind].
  eexists. split; [reflexivity|]. cbn [filterSql filterArgs]. split; [|reflexivity].
  unfold quoted. do 2 f_equal. assoc.
Qed.

Lemma filterLoop_accepts (P : Operator) (batch : list (string * value))
  (ts : list scalarTerm) (st : loopState) :
  Forall2 accepts batch ts ->
  exists st',
    filterLoop P batch st = Ok st'
    /\ filterSql st'
       = filterSql st
           ++ catAll (map (fun t => nth (tFlag t) ANDOR "" ++ " " ++ quoted P t ++ " ") ts)
    /\ filterArgs st' = (filterArgs st ++ map snd batch)%list.
Proof.
  intros H. revert st.
  induction H as [|kv t batch ts Hkv _ IH]; intros st.
  - exists st. simpl. now rewrite append_nil_r, List.app_nil_r.
  - destruct (filterPair_accepts P st Hkv) as (st1 & E1 & S1 & A1).
    destruct (IH st1) as (st2 & E2 & S2 & A2).
    exists st2. cbn [filterLoop]. rewrite E1. cbn [bind]. split; [exact E2|].
    rewrite S2, S1, A2, A1. split.
    + cbn [map catAll]. assoc.
    + cbn [map]. now rewrite <- List.app_assoc.
Qed.

(** The pieces of a batch, put end to end, are the fragment between the
    first combinator with its space and one closing space. *)
Lemma pieces_scalarFragment (P : Operator) (t : scalarTerm) (ts : list scalarTerm) :
  catAll (map (fun t => nth (tFlag t) ANDOR "" ++ " " ++ quoted P t ++ " ") (t :: ts))
  = nth (tFlag t) ANDOR "" ++ " " ++ scalarFragment P (t :: ts) ++ " ".
Proof.
  revert t. induction ts as [|t' ts IH]; intros t.
  - assoc.
  - change (catAll (map ?g (t :: t' :: ts)))
      with (g t ++ catAll (map g (t' :: ts))).
    rewrite IH. cbn [scalarFragment map catAll]. unfold joined.
    assoc.
Qed.

Lemma catAll_joined_ends (P : Operator) (ts : list scalarTerm) (s : string) :
  exists m, s ++ "?" ++ catAll (map (joined P) ts) = m ++ "?".
Proof.
  revert s. induction ts as [|t ts IH]; intros s.
  - exists s. simpl. reflexivity.
  - cbn [map catAll]. unfold joined at 1, quoted.
    destruct (IH (s ++ "?" ++ " " ++ nth (tFlag t) ANDOR "" ++ " " ++ "`" ++ tField t
                    ++ "`" ++ OperatorSQL (tOperator t))) as [m E].
    exists m. rewrite <- E. assoc.
Qed.

Lemma scalarFragment_ends (P : Operator) (t : scalarTerm) (ts : list scalarTerm) :
  exists m, scalarFragment P (t :: ts) = m ++ "?".
Proof.
  cbn [scalarFragment]. unfold quoted.
  destruct (catAll_joined_ends P ts ("`" ++ tField t ++ "`" ++ OperatorSQL (tOperator t)))
    as [m E].
  exists m. rewrite <- E. assoc.
Qed.

(** Every batch of accepted scalar pairs compiles to its comparisons, each
    column in backticks, and to the values in order. *)
Lemma filterHandler_scalars (P : Operator) (batch : list (string * value))
  (ts : list scalarTerm) :
  batch <> [] ->
  Forall2 accepts batch ts ->
  filterHandler P batch = Ok (scalarFragment P ts, map snd batch).
Proof.
  intros Hne H. unfold filterHandler.
  destruct (filterLoop_accepts P st0 H) as (st' & E & S & A).
  destruct H as [|kv t batch ts Hkv Hrest]; [congruence|].
  cbn [List.length Nat.eqb]. fold st0. rewrite E. cbn [bind].
  rewrite S, A. cbn [filterSql filterArgs st0 List.app]. change ("" ++ ?x) with x.
  rewrite pieces_scalarFragment.
  destruct (scalarFragment_ends P t ts) as [m Em]. rewrite Em.
  destruct Hkv as (Hn & Hl & _ & _).
  destruct (lookups_flag _ _ Hn Hl) as [F | F]; rewrite F; cbn [nth ANDOR].
  - replace ("AND" ++ " " ++ (m ++ "?") ++ " ")
      with (String "A" (("ND " ++ m) ++ String "?" " "))
      by assoc.
    rewrite TrimSpace_solid by reflexivity.
    replace (String "A" (("ND " ++ m) ++ String "?" "")) with ("AND " ++ m ++ "?")
      by assoc.
    simpl. reflexivity.
  - replace ("OR" ++ " " ++ (m ++ "?") ++ " ")
      with (String "O" (("R " ++ m) ++ String "?" " "))
      by assoc.
    rewrite TrimSpace_solid by reflexivity.
    replace (String "O" (("R " ++ m) ++ String "?" "")) with ("OR " ++ m ++ "?")
      by assoc.
    simpl. reflexivity.
Qed.

(** ** Values stay out of the SQL text *)

Lemma lookups_agree (key : string) (st st' : loopState) :
  agree st st' -> lookups key st = lookups key st'.
Proof.
  intros (Ho & Hf & _). unfold lookups. now rewrite Ho, Hf.
Qed.

(** The loop body reads of a value only its kind and its length. *)
Lemma filterPair_agree (P : Operator) (st st' : loopState) (kv kv' : string * value) :
  samePair kv kv' -> agree st st' ->
  agreeResult (filterPair P st kv) (filterPair P st' kv').
Proof.
  destruct kv as [key v], kv' as [key' v']. intros [Hk Hs] Ha.
  cbn [fst snd] in Hk, Hs. subst key'.
  unfold filterPair. rewrite (lookups_agree key Ha).
  destruct Ha as (_ & _ & Hsql).
  destruct (lookups key st') as [[[f o] fl]|msg]; cbn [bind]; [|reflexivity].
  destruct Hs as [k r r' | a kind xs ys Hlen].
  - destruct (scalarKind k); [|reflexivity].
    destruct ((o =? "in") || (o =? "between")); [reflexivity|].
    destruct (at_ ANDOR fl) as [c|msg]; cbn [bind]; [|reflexivity].
    repeat split. cbn [filterSql]. now rewrite Hsql.
  - rewrite Hlen.
    destruct (List.length ys =? 0)%nat; [reflexivity|].
    destruct (unsupportedElemKind kind); [reflexivity|].
    destruct (at_ ANDOR fl) as [c|msg]; cbn [bind]; [|reflexivity].
    destruct (sliceFragment f o (OperatorSQL o) fl (List.length ys)) as [frag|msg];
      cbn [bind]; [|reflexivity].
    repeat split. cbn [filterSql]. now rewrite Hsql.
Qed.

Lemma filterLoop_agree (P : Operator) (batch batch' : list (string * value))
  (st st' : loopState) :
  Forall2 samePair batch batch' -> agree st st' ->
  agreeResult (filterLoop P batch st) (filterLoop P batch' st').
Proof.
  intros H. revert st st'.
  induction H as [|kv kv' batch batch' Hkv _ IH]; intros st st' Ha; [exact Ha|].
  cbn [filterLoop].
  pose proof (filterPair_agree P Hkv Ha) as Hp.
  destruct (filterPair P st kv) as [s|m], (filterPair P st' kv') as [s'|m'];
    cbn [agreeResult bind] in *; try contradiction.
  - now apply IH.
  - exact Hp.
Qed.

Lemma filterHandler_text (P : Operator) (batch batch' : list (string * value)) :
  Forall2 samePair batch batch' ->
  text (filterHandler P batch) = text (filterHandler P batch').
Proof.
  intros H. unfold filterHandler.
  rewrite (Forall2_length H).
  destruct (List.length batch' =? 0)%nat; [reflexivity|].
  assert (Ha : agree st0 st0) by (repeat split).
  pose proof (filterLoop_agree P H Ha) as Hl. fold st0.
  destruct (filterLoop P batch st0) as [s|m], (filterLoop P batch' st0) as [s'|m'];
    cbn [agreeResult bind] in *; try contradiction.
  - destruct Hl as (_ & _ & ->).
    destruct (negb (TrimSpace (filterSql s') =? "")); [|reflexivity].
    destruct (HasPrefix (TrimSpace (filterSql s')) "OR").
    { destruct (sliceFrom (TrimSpace (filterSql s')) 3); reflexivity. }
    destruct (HasPrefix (TrimSpace (filterSql s')) "AND"); [|reflexivity].
    destruct (sliceFrom (TrimSpace (filterSql s')) 4); reflexivity.
  - now subst.
Qed.

(** ** Identifier quoting *)

(** C4, as stated, fails: the collection [in] filter over three elements
    yields the column without backticks, and so does the select list. *)
Lemma collection_and_select_columns_unquoted :
  filterHandler mysql.NewOperator
    [("status__in", Seq false String_ [Atom String_ "A"; Atom String_ "B"; Atom String_ "C"])]
  = Ok ("status  IN (?,?,?)", [Atom String_ "A"; Atom String_ "B"; Atom String_ "C"])
  /\ GetSelectSQL (SelectToSQL ["id"; "name"] q0) = "id,name".
Proof. split; reflexivity. Qed.

(** C4, amended: every batch of scalar comparisons compiles to a fragment
    in which each column is in backticks and each value is a placeholder,
    the values being returned apart, in order; the SQL text of any batch,
    scalar or not, is the same for values of the same kinds and lengths, so
    no value is ever written into it; and the select list is the column
    names as given, joined by commas. *)
Theorem scalar_columns_quoted_values_apart (P : Operator) :
  (forall batch ts,
      batch <> [] -> Forall2 accepts batch ts ->
      filterHandler P batch = Ok (scalarFragment P ts, map snd batch))
  /\ (forall batch batch',
         Forall2 samePair batch batch' ->
         text (filterHandler P batch) = text (filterHandler P batch'))
  /\ (forall columns p,
         Join columns "," <> "" ->
         GetSelectSQL (SelectToSQL columns p) = Join columns ",").
Proof.
  split; [|split].
  - intros batch ts. apply filterHandler_scalars.
  - intros batch batch'. apply filterHandler_text.
  - intros columns p H. unfold GetSelectSQL, SelectToSQL. cbn [selectColumn set_selectColumn].
    apply String.eqb_neq in H. now rewrite H.
Qed.

Lemma scalar_columns_quoted_values_apart_witness :
  filterHandler mysql.NewOperator
    [("age__gte", Atom Int "18"); ("name__exact__Q", Atom String_ "x")]
  = Ok ("`age`>=? OR `name`=?", [Atom Int "18"; Atom String_ "x"])
  /\ text (filterHandler mysql.NewOperator
             [("status__in", Seq false String_ [Atom String_ "A"; Atom String_ "B"])])
     = text (filterHandler mysql.NewOperator
               [("status__in", Seq false String_ [Atom String_ "?"; Atom String_ "`"])])
  /\ GetSelectSQL (SelectToSQL ["id"; "name"] q0) = "id,name".
Proof.
  split; [|split].
  - apply (proj1 (scalar_columns_quoted_values_apart mysql.NewOperator)
             [("age__gte", Atom Int "18"); ("name__exact__Q", Atom String_ "x")]
             [ {| tField := "age"; tOperator := "gte"; tFlag := 0 |};
               {| tField := "name"; tOperator := "exact"; tFlag := 1 |} ]).
    + discriminate.
    + constructor; [|constructor; [|constructor]];
        (split; [simpl; lia
                | split; [reflexivity
                         | split; [eexists; eexists; split; reflexivity | reflexivity]]]).
  - apply (proj1 (proj2 (scalar_columns_quoted_values_apart mysql.NewOperator))).
    constructor; [|constructor]. split; [reflexivity|]. simpl. now constructor.
  - apply (proj2 (proj2 (scalar_columns_quoted_values_apart mysql.NewOperator))).
    discriminate.
Defined.

(** ** Placeholders of scalar fragments *)

Lemma countPlaceholders_append (s t : string) :
  countPlaceholders (s ++ t) = countPlaceholders s + countPlaceholders t.
Proof.
  induction s as [|c s IH]; simpl; [reflexivity|]. rewrite IH. lia.
Qed.

(** Where neither a column name nor an operator text holds a [?], a batch
    of scalar comparisons has one placeholder for each of its arguments. *)
Lemma scalar_placeholders_match_arguments (P : Operator)
  (batch : list (string * value)) (ts : list scalarTerm) :
  batch <> [] ->
  Forall2 accepts batch ts ->
  Forall (fun t => countPlaceholders (tField t) = 0
                   /\ countPlaceholders (OperatorSQL (tOperator t)) = 0) ts ->
  exists sql args,
    filterHandler P batch = Ok (sql, args)
    /\ countPlaceholders sql = List.length args.
Proof.
  intros Hne Hacc Hq.
  exists (scalarFragment P ts), (map snd batch).
  split; [now apply filterHandler_scalars|].
  rewrite length_map, (Forall2_length Hacc).
  assert (Hquoted : forall t,
             countPlaceholders (tField t) = 0
             /\ countPlaceholders (OperatorSQL (tOperator t)) = 0 ->
             countPlaceholders (quoted P t) = 1).
  { intros t [Hf Ho]. unfold quoted.
    rewrite !countPlaceholders_append, Hf, Ho. reflexivity. }
  assert (Hflags : Forall (fun t => tFlag t = 0 \/ tFlag t = 1) ts).
  { clear Hne Hq. induction Hacc as [|kv t b ts' (Hn & Hl & _) _ IH]; constructor; auto.
    exact (lookups_flag _ _ Hn Hl). }
  assert (Hrest : forall l,
             Forall (fun t => countPlaceholders (tField t) = 0
                              /\ countPlaceholders (OperatorSQL (tOperator t)) = 0) l ->
             Forall (fun t => tFlag t = 0 \/ tFlag t = 1) l ->
             countPlaceholders (catAll (map (joined P) l)) = List.length l).
  { induction l as [|t l IH]; intros Hl Hfl; [reflexivity|].
    inversion Hl; inversion Hfl; subst.
    cbn [map catAll List.length]. rewrite countPlaceholders_append, IH by assumption.
    unfold joined. rewrite !countPlaceholders_append, Hquoted by assumption.
    match goal with H : tFlag t = 0 \/ tFlag t = 1 |- _ => destruct H as [-> | ->] end;
      reflexivity. }
  destruct Hq as [|t l Ht Hl]; [reflexivity|].
  inversion Hflags; subst.
  cbn [scalarFragment List.length].
  rewrite countPlaceholders_append, Hquoted, Hrest by assumption. reflexivity.
Qed.

(** * Beyond the claims

    ** filterHandler: the shape of every fragment *)

Lemma at_ANDOR_ok (fl : nat) (c : string) :
  at_ ANDOR fl = Ok c -> c = "AND" \/ c = "OR".
Proof.
  destruct fl as [|[|fl]]; cbn; intros H; try (injection H as <-; auto).
  now destruct fl.
Qed.

Lemma at_BLANKNOT_ok (fl : nat) (n : string) :
  at_ BLANKNOT fl = Ok n -> n = "" \/ n = "NOT".
Proof.
  destruct fl as [|[|fl]]; cbn; intros H; try (injection H as <-; auto).
  now destruct fl.
Qed.

(** What a slice or array appends after the combinator: text that starts
    with a space and ends with [?] or [)] and a space. *)
Lemma sliceFragment_shape (f o op : string) (fl len : nat) (frag : string) :
  sliceFragment f o op fl len = Ok frag ->
  exists m d, solid d = true /\ frag = String " " (m ++ String d " ").
Proof.
  unfold sliceFragment.
  destruct ((o =? "exact") || (o =? "exclude") || (o =? "contains") || (o =? "icontains")).
  { destruct (at_ ANDOR fl) as [c|]; cbn [bind]; [|discriminate].
    intros H. injection H as <-.
    exists ("( " ++ f ++ " " ++ op ++ " ?"
              ++ Repeat (" " ++ c ++ " " ++ f ++ " " ++ op ++ " ?") (len - 1) ++ " "),
      ")"%char.
    split; [reflexivity|]. assoc. }
  destruct (o =? "in").
  { destruct (at_ BLANKNOT fl) as [n|]; cbn [bind]; [|discriminate].
    intros H. injection H as <-.
    exists (f ++ " " ++ n ++ " " ++ op ++ " (?" ++ Repeat ",?" (len - 1)), ")"%char.
    split; [reflexivity|]. assoc. }
  destruct (o =? "between"); [|discriminate].
  destruct (at_ BLANKNOT fl) as [n|]; cbn [bind]; [|discriminate].
  intros H. injection H as <-.
  exists (f ++ " " ++ n ++ " " ++ op ++ " ? AND "), "?"%char.
  split; [reflexivity|]. assoc.
Qed.

(** One turn of the loop that returns has appended a combinator, a space,
    text ending in [?] or [)], and a space; and the pair's values. *)
Lemma filterPair_shape (P : Operator) (st st' : loopState) (kv : string * value) :
  filterPair P st kv = Ok st' ->
  exists c m d,
    (c = "AND" \/ c = "OR") /\ solid d = true
    /\ filterSql st' = filterSql st ++ c ++ String " " (m ++ String d " ")
    /\ filterArgs st' = (filterArgs st ++ valuesOf (snd kv))%list.
Proof.
  destruct kv as [key v]. unfold filterPair.
  destruct (lookups key st) as [[[f o] fl]|]; cbn [bind]; [|discriminate].
  destruct v as [k r | a kind elems]; cbn [snd valuesOf].
  - destruct (scalarKind k); [|discriminate].
    destruct ((o =? "in") || (o =? "between")); [discriminate|].
    destruct (at_ ANDOR fl) as [c|] eqn:Ec; cbn [bind]; [|discriminate].
    intros H. injection H as <-. cbn [filterSql filterArgs].
    exists c, ("`" ++ f ++ "`" ++ OperatorSQL o), "?"%char.
    repeat split; [exact (at_ANDOR_ok _ Ec)|]. do 2 f_equal. assoc.
  - destruct (List.length elems =? 0)%nat; [discriminate|].
    destruct (unsupportedElemKind kind); [discriminate|].
    destruct (at_ ANDOR fl) as [c|] eqn:Ec; cbn [bind]; [|discriminate].
    destruct (sliceFragment f o (OperatorSQL o) fl (List.length elems)) as [frag|] eqn:Ef;
      cbn [bind]; [|discriminate].
    intros H. injection H as <-. cbn [filterSql filterArgs].
    destruct (sliceFragment_shape _ _ _ _ _ Ef) as (m & d & Hd & ->).
    exists c, m, d. repeat split; auto. exact (at_ANDOR_ok _ Ec).
Qed.

Lemma filterLoop_shape (P : Operator) (batch : list (string * value))
  (st st' : loopState) :
  batch <> [] ->
  filterLoop P batch st = Ok st' ->
  exists c m d,
    (c = "AND" \/ c = "OR") /\ solid d = true
    /\ filterSql st' = filterSql st ++ c ++ String " " (m ++ String d " ")
    /\ filterArgs st' = (filterArgs st ++ flat_map (fun kv => valuesOf (snd kv)) batch)%list.
Proof.
  revert st. induction batch as [|kv batch IH]; intros st Hne H; [congruence|].
  cbn [filterLoop] in H.
  destruct (filterPair P st kv) as [st1|] eqn:E1; cbn [bind] in H; [|discriminate].
  destruct (filterPair_shape _ _ _ E1) as (c & m & d & Hc & Hd & S1 & A1).
  destruct batch as [|kv' batch].
  - cbn [filterLoop] in H. injection H as <-.
    exists c, m, d. repeat split; auto. rewrite A1. cbn. now rewrite List.app_nil_r.
  - destruct (IH st1 ltac:(discriminate) H) as (c' & m' & d' & _ & Hd' & S2 & A2).
    exists c, (m ++ String d " " ++ c' ++ String " " m'), d'.
    repeat split; auto.
    + rewrite S2, S1. assoc.
    + rewrite A2, A1. cbn [flat_map]. now rewrite <- List.app_assoc.
Qed.

(** Every batch that compiles: the text the loop built is a combinator, a
    space, the returned fragment and a space; the fragment is not empty and
    ends with [?] or [)]; the arguments are the values of the pairs, those
    of a slice or array spread out, in the order of the pairs. *)
Lemma filterHandler_shape (P : Operator) (batch : list (string * value))
  (sql : string) (args : list value) :
  batch <> [] ->
  filterHandler P batch = Ok (sql, args) ->
  exists st c m d,
    filterLoop P batch st0 = Ok st
    /\ (c = "AND" \/ c = "OR") /\ solid d = true
    /\ filterSql st = c ++ " " ++ sql ++ " "
    /\ sql = m ++ String d ""
    /\ args = flat_map (fun kv => valuesOf (snd kv)) batch.
Proof.
  intros Hne. unfold filterHandler.
  replace (List.length batch =? 0)%nat with false
    by (destruct batch; [congruence | reflexivity]).
  fold st0.
  destruct (filterLoop P batch st0) as [st|] eqn:E; cbn [bind]; [|discriminate].
  destruct (@filterLoop_shape P batch st0 st Hne E) as (c & m & d & Hc & Hd & S & A).
  cbn [filterSql filterArgs st0 List.app] in S, A. change ("" ++ ?x) with x in S.
  rewrite S, A.
  destruct Hc as [-> | ->].
  - replace ("AND" ++ String " " (m ++ String d " "))
      with (String "A" (("ND " ++ m) ++ String d " ")) by assoc.
    rewrite TrimSpace_solid by auto.
    cbn. intros H. injection H as <- <-.
    exists st, "AND", m, d. repeat split; auto. rewrite S. assoc.
  - replace ("OR" ++ String " " (m ++ String d " "))
      with (String "O" (("R " ++ m) ++ String d " ")) by assoc.
    rewrite TrimSpace_solid by auto.
    cbn. intros H. injection H as <- <-.
    exists st, "OR", m, d. repeat split; auto. rewrite S. assoc.
Qed.

(** ** filterHandler: placeholders and arguments of any batch *)

Lemma countPlaceholders_Repeat (s : string) (n : nat) :
  countPlaceholders (Repeat s n) = n * countPlaceholders s.
Proof.
  induction n as [|n IH]; [reflexivity|].
  cbn [Repeat]. rewrite countPlaceholders_append, IH. lia.
Qed.

(** Counting the [?] of appended and repeated strings *)
Ltac count :=
  repeat progress (cbn; rewrite ?countPlaceholders_append, ?countPlaceholders_Repeat).

(** Splitting adds no [?]: the parts hold at most those of the string. *)
Lemma splitFrom_count (sep : string) (s : string) (skip : nat) (cur : string) :
  list_sum (map countPlaceholders (splitFrom sep skip cur s))
  <= countPlaceholders cur + countPlaceholders s.
Proof.
  unfold list_sum. revert skip cur. induction s as [|c s IH]; intros skip cur.
  - cbn. lia.
  - cbn [splitFrom]. destruct skip as [|k].
    + destruct (prefix sep (String c s)).
      * cbn [map fold_right]. specialize (IH (String.length sep - 1) "").
        cbn [countPlaceholders] in *. lia.
      * specialize (IH 0 (cur ++ String c "")).
        rewrite countPlaceholders_append in IH.
        cbn [countPlaceholders] in *. lia.
    + specialize (IH k cur). cbn [countPlaceholders]. lia.
Qed.

Lemma lookups_field_count (key : string) (st : loopState) (f o : string) (fl : nat) :
  lookups key st = Ok (f, o, fl) -> countPlaceholders f <= countPlaceholders key.
Proof.
  unfold lookups. pose proof (splitFrom_count "__" key 0 "") as H.
  fold (Split key "__") in H. unfold list_sum in H. cbn [countPlaceholders] in H.
  destruct (Split key "__") as [|a [|b [|c [|d l]]]]; cbn [map fold_right] in H; intros E.
  - discriminate.
  - injection E as <- _ _. lia.
  - destruct (negb (b =? "Q")); injection E as <- _ _; lia.
  - destruct (c =? "Q"); [injection E as <- _ _; lia | discriminate].
  - injection E as <- _ _. lia.
Qed.

Lemma sliceFragment_count (f o op : string) (fl len : nat) (frag : string) :
  countPlaceholders f = 0 -> countPlaceholders op = 0 ->
  len <> 0 -> (o = "between" -> len = 2) ->
  sliceFragment f o op fl len = Ok frag ->
  countPlaceholders frag = len.
Proof.
  intros Hf Hop Hlen Hb. unfold sliceFragment.
  destruct ((o =? "exact") || (o =? "exclude") || (o =? "contains") || (o =? "icontains")).
  { destruct (at_ ANDOR fl) as [c|] eqn:Ec; cbn [bind]; [|discriminate].
    intros H. injection H as <-.
    destruct (at_ANDOR_ok _ Ec) as [-> | ->]; count; rewrite ?Hf, ?Hop; lia. }
  destruct (o =? "in").
  { destruct (at_ BLANKNOT fl) as [n|] eqn:En; cbn [bind]; [|discriminate].
    intros H. injection H as <-.
    destruct (at_BLANKNOT_ok _ En) as [-> | ->]; count; rewrite ?Hf, ?Hop; lia. }
  destruct (String.eqb_spec o "between") as [E|]; [|discriminate].
  destruct (at_ BLANKNOT fl) as [n|] eqn:En; cbn [bind]; [|discriminate].
  intros H. injection H as <-. rewrite (Hb E).
  destruct (at_BLANKNOT_ok _ En) as [-> | ->]; count; rewrite ?Hf, ?Hop; lia.
Qed.

Lemma filterPair_count (P : Operator) (st st' : loopState) (kv : string * value) :
  (forall keyword, countPlaceholders (OperatorSQL keyword) = 0) ->
  countable kv ->
  filterPair P st kv = Ok st' ->
  countPlaceholders (filterSql st')
  = countPlaceholders (filterSql st) + List.length (valuesOf (snd kv)).
Proof.
  intros HP. destruct kv as [key v]. intros (Hn & Hk & Hb). cbn [fst snd] in *.
  unfold filterPair. rewrite (lookups_short key st st0 Hn).
  destruct (lookups key st0) as [[[f o] fl]|] eqn:El; cbn [bind]; [|discriminate].
  assert (Hf : countPlaceholders f = 0) by (pose proof (lookups_field_count _ _ El); lia).
  destruct v as [k r | a kind elems]; cbn [valuesOf].
  - destruct (scalarKind k); [|discriminate].
    destruct ((o =? "in") || (o =? "between")); [discriminate|].
    destruct (at_ ANDOR fl) as [c|] eqn:Ec; cbn [bind]; [|discriminate].
    intros H. injection H as <-. cbn [filterSql].
    destruct (at_ANDOR_ok _ Ec) as [-> | ->]; count; rewrite ?Hf, ?HP; lia.
  - destruct (Nat.eqb_spec (List.length elems) 0) as [|Hlen]; [discriminate|].
    destruct (unsupportedElemKind kind); [discriminate|].
    destruct (at_ ANDOR fl) as [c|] eqn:Ec; cbn [bind]; [|discriminate].
    destruct (sliceFragment f o (OperatorSQL o) fl (List.length elems)) as [frag|] eqn:Ef;
      cbn [bind]; [|discriminate].
    intros H. injection H as <-. cbn [filterSql].
    assert (Hfrag : countPlaceholders frag = List.length elems).
    { apply (@sliceFragment_count f o (OperatorSQL o) fl (List.length elems) frag
               Hf (HP o) Hlen); [|exact Ef].
      intros ->. exact (Hb f fl a kind elems eq_refl eq_refl). }
    rewrite !countPlaceholders_append, Hfrag.
    destruct (at_ANDOR_ok _ Ec) as [-> | ->]; cbn; lia.
Qed.

Lemma filterLoop_count (P : Operator) (batch : list (string * value))
  (st st' : loopState) :
  (forall keyword, countPlaceholders (OperatorSQL keyword) = 0) ->
  Forall countable batch ->
  filterLoop P batch st = Ok st' ->
  countPlaceholders (filterSql st')
  = countPlaceholders (filterSql st)
    + List.length (flat_map (fun kv => valuesOf (snd kv)) batch).
Proof.
  intros HP Hall. revert st.
  induction Hall as [|kv batch Hkv _ IH]; intros st H.
  - cbn in *. injection H as <-. lia.
  - cbn [filterLoop] in H.
    destruct (filterPair P st kv) as [st1|] eqn:E1; cbn [bind] in H; [|discriminate].
    rewrite (IH _ H), (@filterPair_count P st st1 kv HP Hkv E1).
    cbn [flat_map]. rewrite List.length_app. lia.
Qed.

Lemma mysql_operators_no_placeholder (keyword : string) :
  countPlaceholders (mysql.OperatorSQL keyword) = 0.
Proof.
  unfold mysql.OperatorSQL, mysql.operators.
  cbn [mysql.index].
  repeat match goal with
         | |- context [if ?b then _ else _] => destruct b; [reflexivity|]
         end.
  reflexivity.
Qed.

Lemma filterHandler_count (P : Operator)
  (batch : list (string * value)) (sql : string) (args : list value) :
  (forall keyword, countPlaceholders (OperatorSQL keyword) = 0) ->
  Forall countable batch ->
  filterHandler P batch = Ok (sql, args) ->
  countPlaceholders sql = List.length args.
Proof.
  intros HP Hall H.
  destruct batch as [|kv batch].
  { cbn in H. injection H as <- <-. reflexivity. }
  destruct (@filterHandler_shape P (kv :: batch) sql args ltac:(discriminate) H)
    as (st & c & m & d & E & Hc & _ & S & _ & ->).
  pose proof (@filterLoop_count P _ st0 st HP Hall E) as Hcount.
  rewrite S, !countPlaceholders_append in Hcount.
  destruct Hc as [-> | ->]; cbn in Hcount; cbn [flat_map]; lia.
Qed.

(** X1: when no operator text and no key of the batch holds a [?], every
    key has at most three parts and every [between] comes with exactly two
    elements, a batch that compiles has as many placeholders in its
    fragment as arguments. *)
Theorem filterHandler_placeholders_match_arguments (P : Operator)
  (batch : list (string * value)) (sql : string) (args : list value) :
  (forall keyword, countPlaceholders (OperatorSQL keyword) = 0) ->
  Forall countable batch ->
  filterHandler P batch = Ok (sql, args) ->
  countPlaceholders sql = List.length args.
Proof. apply filterHandler_count. Qed.

Lemma filterHandler_placeholders_match_arguments_witness :
  countPlaceholders
    "`age`>=? AND price  BETWEEN ? AND ? OR id NOT IN (?,?,?) OR ( tag = ? OR tag = ? )"
  = List.length
      [Atom Int "18"; Atom Int "10"; Atom Int "20";
       Atom Int "1"; Atom Int "2"; Atom Int "3"; Atom String_ "a"; Atom String_ "b"].
Proof.
  apply (@filterHandler_placeholders_match_arguments mysql.NewOperator
           [("age__gte", Atom Int "18");
            ("price__between", Seq false Int [Atom Int "10"; Atom Int "20"]);
            ("id__in__Q", Seq true Int [Atom Int "1"; Atom Int "2"; Atom Int "3"]);
            ("tag__Q", Seq false String_ [Atom String_ "a"; Atom String_ "b"])]).
  - exact mysql_operators_no_placeholder.
  - repeat (apply Forall_cons;
            [split; [cbn; lia | split; [reflexivity|]];
             intros f fl a kind elems H1 H2; cbn in H1; try congruence;
             injection H2 as _ _ <-; reflexivity|]).
    apply Forall_nil.
  - reflexivity.
Defined.

(** X2: the arguments of a batch that compiles are the values of its pairs
    in the order of the pairs, the elements of each slice or array spread
    out in their order. *)
Theorem filterHandler_arguments_in_pair_order (P : Operator)
  (batch : list (string * value)) (sql : string) (args : list value) :
  filterHandler P batch = Ok (sql, args) ->
  args = flat_map (fun kv => valuesOf (snd kv)) batch.
Proof.
  intros H. destruct batch as [|kv batch].
  - cbn in H. now injection H as _ <-.
  - destruct (@filterHandler_shape P (kv :: batch) sql args ltac:(discriminate) H)
      as (_ & _ & _ & _ & _ & _ & _ & _ & _ & E).
    exact E.
Qed.

Lemma filterHandler_arguments_in_pair_order_witness :
  [Atom Int "18"; Atom String_ "A"; Atom String_ "B"; Atom Bool "true"]
  = flat_map (fun kv => valuesOf (snd kv))
      [("age__gte", Atom Int "18");
       ("status__in", Seq false String_ [Atom String_ "A"; Atom String_ "B"]);
       ("deleted", Atom Bool "true")].
Proof.
  apply (@filterHandler_arguments_in_pair_order mysql.NewOperator _
           "`age`>=? AND status  IN (?,?) AND `deleted`=?").
  reflexivity.
Defined.

(** ** FilterToSQL and ExcludeToSQL on the accumulator *)

Lemma filterHandler_fragment_not_empty (P : Operator)
  (batch : list (string * value)) (sql : string) (args : list value) :
  batch <> [] -> filterHandler P batch = Ok (sql, args) -> sql <> "".
Proof.
  intros Hne H.
  destruct (@filterHandler_shape P batch sql args Hne H)
    as (_ & _ & m & d & _ & _ & _ & _ & -> & _).
  destruct m; discriminate.
Qed.

(** X3: a call of [FilterToSQL] or [ExcludeToSQL] with a batch of at least
    one pair that returns has added exactly one condition at the end of its
    list, with a fragment that is not empty and the batch's values as
    arguments, and has changed nothing else. *)
Theorem batch_adds_exactly_one_condition (p p' : QuerySetImpl)
  (batch : list (string * value)) :
  batch <> [] ->
  (FilterToSQL batch p = (p', Ok tt) ->
   exists sql,
     sql <> ""
     /\ p' = set_filterCondition p
               (filterCondition p
                  ++ [{| SQL := sql;
                         Args := flat_map (fun kv => valuesOf (snd kv)) batch |}])%list)
  /\ (ExcludeToSQL batch p = (p', Ok tt) ->
      exists sql,
        sql <> ""
        /\ p' = set_excludeCondition p
                  (excludeCondition p
                     ++ [{| SQL := sql;
                            Args := flat_map (fun kv => valuesOf (snd kv)) batch |}])%list).
Proof.
  intros Hne. unfold FilterToSQL, ExcludeToSQL.
  destruct (filterHandler (operator_ p) batch) as [[sql args]|msg] eqn:E;
    [|split; discriminate].
  pose proof (@filterHandler_fragment_not_empty _ batch sql args Hne E) as Hsql.
  destruct (@filterHandler_shape _ batch sql args Hne E)
    as (_ & _ & _ & _ & _ & _ & _ & _ & _ & ->).
  apply String.eqb_neq in Hsql as Hb. rewrite Hb.
  split; intros H; injection H as <-; exists sql; split; auto.
Qed.

Lemma batch_adds_exactly_one_condition_witness :
  exists sql,
    sql <> ""
    /\ fst (FilterToSQL [("age__gte", Atom Int "18")] q0)
       = set_filterCondition q0
           (filterCondition q0
              ++ [{| SQL := sql;
                     Args := flat_map (fun kv => valuesOf (snd kv))
                               [("age__gte", Atom Int "18")] |}])%list.
Proof.
  apply (proj1 (@batch_adds_exactly_one_condition q0
                  (fst (FilterToSQL [("age__gte", Atom Int "18")] q0))
                  [("age__gte", Atom Int "18")] ltac:(discriminate))).
  reflexivity.
Defined.

(** ** GetQuerySet on any query set *)

Lemma GetQuerySet_clause (p : QuerySetImpl) :
  SQL (whereCondition p) = "" ->
  (map includeTerm (filterCondition p) ++ map excludeTerm (excludeCondition p))%list <> [] ->
  GetQuerySet p
  = Ok (" WHERE "
          ++ Join (map includeTerm (filterCondition p)
                     ++ map excludeTerm (excludeCondition p)) " AND ",
        (List.concat (map Args (filterCondition p))
           ++ List.concat (map Args (excludeCondition p)))%list).
Proof.
  intros Hw Hts. unfold GetQuerySet. rewrite Hw. cbn [negb String.eqb].
  remember (filterCondition p) as fs eqn:Efs.
  remember (excludeCondition p) as es eqn:Ees. clear Efs Ees.
  replace ((List.length fs =? 0)%nat && (List.length es =? 0)%nat) with false
    by (destruct fs, es; try reflexivity; now elim Hts).
  rewrite (appendConditions_eq "(" fs "" []), appendConditions_eq.
  cbn [fst snd]. change ("" ++ ?x) with x.
  rewrite <- catAll_app.
  change (map (fun v => ("(" ++ SQL v ++ ")") ++ " AND ") fs)
    with (map (fun v => includeTerm v ++ " AND ") fs).
  change (map (fun v => ("NOT (" ++ SQL v ++ ")") ++ " AND ") es)
    with (map (fun v => excludeTerm v ++ " AND ") es).
  rewrite <- (map_map includeTerm (fun t => t ++ " AND ")).
  rewrite <- (map_map excludeTerm (fun t => t ++ " AND ")).
  rewrite <- map_app, catAll_Join by exact Hts.
  set (J := Join (map includeTerm fs ++ map excludeTerm es) " AND ").
  assert (HJ : bracketed J).
  { apply Join_bracketed; [exact Hts|].
    apply Forall_app. split; apply Forall_forall; intros t Hin;
      apply in_map_iff in Hin as (v & <- & _);
      [apply includeTerm_bracketed | apply excludeTerm_bracketed]. }
  replace (J ++ " AND ") with ((J ++ " ") ++ "AND ") by assoc.
  unfold sliceTo. rewrite (length_append (J ++ " ")). cbn [String.length].
  replace (String.length (J ++ " ") + 4 <? 4)%nat with false
    by (symmetry; apply Nat.ltb_ge; lia).
  replace (String.length (J ++ " ") + 4 - 4) with (String.length (J ++ " ")) by lia.
  replace (String.length (J ++ " ") <=? String.length (J ++ " ") + 4)%nat with true
    by (symmetry; apply Nat.leb_le; lia).
  rewrite take_append. cbn [bind]. now rewrite TrimSpace_bracketed.
Qed.

(** C10: [GetQuerySet] takes the override only when its text is not empty:
    on a query set whose override text is not empty it returns [" WHERE "]
    and that text with the override's arguments.  After [WhereToSQL] with
    the empty condition, whatever arguments came with it and whatever
    override was set before, it falls back to the accumulated conditions:
    the empty clause with no argument when there is none, and otherwise the
    include fragments in parentheses and the exclude fragments in [NOT ( )]
    joined by [" AND "], with their arguments, exactly as on the query set
    with no override. *)
Theorem Where_empty_condition_as_unset (p : QuerySetImpl) (args : list value) :
  (SQL (whereCondition p) <> "" ->
   GetQuerySet p = Ok (" WHERE " ++ SQL (whereCondition p), Args (whereCondition p)))
  /\ (filterCondition p = [] /\ excludeCondition p = [] ->
      GetQuerySet (WhereToSQL "" args p) = Ok ("", []))
  /\ (filterCondition p <> [] \/ excludeCondition p <> [] ->
      GetQuerySet (WhereToSQL "" args p)
      = Ok (" WHERE "
              ++ Join (map includeTerm (filterCondition p)
                         ++ map excludeTerm (excludeCondition p)) " AND ",
            (List.concat (map Args (filterCondition p))
               ++ List.concat (map Args (excludeCondition p)))%list))
  /\ GetQuerySet (WhereToSQL "" args p)
     = GetQuerySet (set_whereCondition p {| SQL := ""; Args := [] |}).
Proof.
  split; [apply GetQuerySet_override|]. split; [|split].
  - intros [Hf He]. unfold GetQuerySet, WhereToSQL. cbn. now rewrite Hf, He.
  - intros Hne.
    apply (GetQuerySet_clause (WhereToSQL "" args p) eq_refl).
    cbn [WhereToSQL filterCondition excludeCondition set_whereCondition].
    destruct (filterCondition p), (excludeCondition p); try discriminate.
    destruct Hne; congruence.
  - reflexivity.
Qed.

Lemma Where_empty_condition_as_unset_witness :
  let p := WhereToSQL "custom = ?" [Atom Int "5"]
             (fst (chain [CallFilter [("age__gte", Atom Int "18")];
                          CallExclude [("deleted__exact", Atom Bool "true")]] q0)) in
  GetQuerySet p = Ok (" WHERE custom = ?", [Atom Int "5"])
  /\ GetQuerySet (WhereToSQL "" [Atom Int "7"] q0) = Ok ("", [])
  /\ GetQuerySet (WhereToSQL "" [Atom Int "7"] p)
     = Ok (" WHERE (`age`>=?) AND NOT (`deleted`=?)", [Atom Int "18"; Atom Bool "true"]).
Proof.
  intros p. split; [|split].
  - apply (proj1 (Where_empty_condition_as_unset p [])). discriminate.
  - apply (proj1 (proj2 (Where_empty_condition_as_unset q0 [Atom Int "7"]))).
    split; reflexivity.
  - apply (proj1 (proj2 (proj2 (Where_empty_condition_as_unset p [Atom Int "7"])))).
    left. discriminate.
Defined.

(** X4: [GetQuerySet] returns on every query set: the slice that drops the
    last [AND ] is always within the text built. *)
Theorem GetQuerySet_never_panics (p : QuerySetImpl) :
  exists sql args, GetQuerySet p = Ok (sql, args).
Proof.
  destruct (String.eqb_spec (SQL (whereCondition p)) "") as [Hw|Hw].
  - destruct (map includeTerm (filterCondition p)
                ++ map excludeTerm (excludeCondition p))%list eqn:Hts.
    + apply app_eq_nil in Hts as [Hf He].
      apply map_eq_nil in Hf, He.
      unfold GetQuerySet. rewrite Hw, Hf, He. now eexists; eexists.
    + rewrite GetQuerySet_clause; [now eexists; eexists | exact Hw | now rewrite Hts].
  - rewrite GetQuerySet_override by exact Hw. now eexists; eexists.
Qed.

(** ** Placeholders and arguments of the assembled clause *)

Lemma countPlaceholders_Join (ts : list string) (sep : string) :
  countPlaceholders sep = 0 ->
  countPlaceholders (Join ts sep) = list_sum (map countPlaceholders ts).
Proof.
  intros Hsep. unfold list_sum. induction ts as [|t ts IH]; [reflexivity|].
  destruct ts as [|t' ts].
  - cbn. lia.
  - change (Join (t :: t' :: ts) sep) with (t ++ sep ++ Join (t' :: ts) sep).
    rewrite !countPlaceholders_append, IH, Hsep. cbn [map fold_right]. lia.
Qed.

Lemma balanced_terms (pre : string) (conds : list queryFilter) :
  countPlaceholders pre = 0 ->
  Forall balanced conds ->
  list_sum (map countPlaceholders (map (fun v => pre ++ SQL v ++ ")") conds))
  = List.length (List.concat (map Args conds)).
Proof.
  intros Hpre Hall. unfold list_sum.
  induction Hall as [|v conds Hv _ IH]; [reflexivity|].
  cbn [map fold_right List.concat]. rewrite IH, List.length_app.
  rewrite !countPlaceholders_append, Hpre, Hv. cbn. lia.
Qed.

Lemma GetQuerySet_balanced (p : QuerySetImpl) (sql : string) (args : list value) :
  allBalanced p -> GetQuerySet p = Ok (sql, args) ->
  countPlaceholders sql = List.length args.
Proof.
  intros (Hw & Hf & He).
  destruct (String.eqb_spec (SQL (whereCondition p)) "") as [E|E].
  - destruct (map includeTerm (filterCondition p)
                ++ map excludeTerm (excludeCondition p))%list eqn:Hts.
    + apply app_eq_nil in Hts as [Hf' He']. apply map_eq_nil in Hf', He'.
      unfold GetQuerySet. rewrite E, Hf', He'. cbn. intros H. now injection H as <- <-.
    + rewrite GetQuerySet_clause; [|exact E | now rewrite Hts].
      intros H. injection H as <- <-.
      cbn [countPlaceholders Ascii.eqb Bool.eqb Nat.add].
      rewrite countPlaceholders_Join by reflexivity.
      rewrite map_app, list_sum_app, List.length_app.
      unfold includeTerm, excludeTerm.
      rewrite (balanced_terms "(" eq_refl Hf), (balanced_terms "NOT (" eq_refl He).
      reflexivity.
  - rewrite GetQuerySet_override by exact E.
    intros H. injection H as <- <-.
    cbn [countPlaceholders Ascii.eqb Bool.eqb Nat.add]. exact Hw.
Qed.

Lemma perform_operator (c : call) (p : QuerySetImpl) :
  operator_ (fst (perform c p)) = operator_ p.
Proof.
  destruct c; cbn [perform fst]; try reflexivity.
  - unfold FilterToSQL.
    destruct (filterHandler (operator_ p) filter) as [[sql args]|]; [|reflexivity].
    now destruct (sql =? "").
  - unfold ExcludeToSQL.
    destruct (filterHandler (operator_ p) exclude) as [[sql args]|]; [|reflexivity].
    now destruct (sql =? "").
  - unfold OrderByToSQL. now destruct (List.length orderBy <=? 0)%nat.
  - unfold LimitToSQL. now destruct ((pageSize >? 0) && (pageNum >? 0))%Z.
Qed.

Lemma perform_balanced (c : call) (p : QuerySetImpl) :
  (forall keyword, countPlaceholders (@OperatorSQL (operator_ p) keyword) = 0) ->
  steady c -> allBalanced p -> allBalanced (fst (perform c p)).
Proof.
  intros HP Hc (Hw & Hf & He).
  destruct c; cbn [perform fst steady] in *; try (repeat split; assumption).
  - unfold FilterToSQL.
    destruct (filterHandler (operator_ p) filter) as [[sql args]|] eqn:E;
      [|repeat split; assumption].
    destruct (sql =? ""); [repeat split; assumption|].
    repeat split; cbn; auto.
    apply Forall_app. split; [exact Hf|]. constructor; [|constructor].
    exact (filterHandler_count _ HP Hc E).
  - unfold ExcludeToSQL.
    destruct (filterHandler (operator_ p) exclude) as [[sql args]|] eqn:E;
      [|repeat split; assumption].
    destruct (sql =? ""); [repeat split; assumption|].
    repeat split; cbn; auto.
    apply Forall_app. split; [exact He|]. constructor; [|constructor].
    exact (filterHandler_count _ HP Hc E).
  - unfold OrderByToSQL. destruct (List.length orderBy <=? 0)%nat; repeat split; assumption.
  - unfold LimitToSQL.
    destruct ((pageSize >? 0) && (pageNum >? 0))%Z; repeat split; assumption.
Qed.

Lemma chain_balanced (cs : list call) (p : QuerySetImpl) :
  (forall keyword, countPlaceholders (@OperatorSQL (operator_ p) keyword) = 0) ->
  Forall steady cs -> allBalanced p -> allBalanced (fst (chain cs p)).
Proof.
  intros HP Hall. revert p HP.
  induction Hall as [|c cs Hc _ IH]; intros p HP Hp; [exact Hp|].
  cbn [chain].
  pose proof (@perform_balanced c p HP Hc Hp) as Hb.
  pose proof (perform_operator c p) as Ho.
  destruct (perform c p) as [p' [[]|msg]]; cbn [fst] in *; [|exact Hb].
  apply IH; [|exact Hb]. now rewrite Ho.
Qed.

(** X5: start from a fresh query set whose operator texts hold no [?] and
    make any calls, where every filter and exclude batch is of countable
    pairs and every raw condition comes with one argument for each of its
    [?]; whether the calls all return or one of them panics, the WHERE
    clause then assembled has as many placeholders as arguments. *)
Theorem assembled_clause_is_balanced (P : Operator) (cs : list call) :
  (forall keyword, countPlaceholders (@OperatorSQL P keyword) = 0) ->
  Forall steady cs ->
  exists sql args,
    GetQuerySet (fst (chain cs (NewQuerySet P))) = Ok (sql, args)
    /\ countPlaceholders sql = List.length args.
Proof.
  intros HP Hall.
  assert (Hb : allBalanced (fst (chain cs (NewQuerySet P)))).
  { apply chain_balanced; [exact HP | exact Hall|]. repeat split; constructor. }
  destruct (String.eqb_spec (SQL (whereCondition (fst (chain cs (NewQuerySet P))))) "")
    as [E|E].
  - destruct (map includeTerm (filterCondition (fst (chain cs (NewQuerySet P))))
                ++ map excludeTerm (excludeCondition (fst (chain cs (NewQuerySet P)))))%list
      eqn:Hts.
    + apply app_eq_nil in Hts as [Hf He]. apply map_eq_nil in Hf, He.
      exists "", []. unfold GetQuerySet. rewrite E, Hf, He. now split.
    + eexists; eexists. split;
        [apply GetQuerySet_clause; [exact E | now rewrite Hts]|].
      eapply GetQuerySet_balanced; [exact Hb|].
      apply GetQuerySet_clause; [exact E | now rewrite Hts].
  - eexists; eexists. split; [apply GetQuerySet_override; exact E|].
    eapply GetQuerySet_balanced; [exact Hb|]. apply GetQuerySet_override; exact E.
Qed.

Lemma assembled_clause_is_balanced_witness :
  exists sql args,
    GetQuerySet
      (fst (chain [CallFilter [("age__gte", Atom Int "18")];
                   CallOrderBy ["-id"];
                   CallExclude [("id__in", Seq false Int [Atom Int "1"; Atom Int "2"])];
                   CallFilter [("name__foo", Seq false Int [Atom Int "1"])]]
              (NewQuerySet mysql.NewOperator)))
    = Ok (sql, args)
    /\ countPlaceholders sql = List.length args.
Proof.
  apply (@assembled_clause_is_balanced mysql.NewOperator).
  - exact mysql_operators_no_placeholder.
  - repeat (apply Forall_cons;
            [cbn [steady];
             try exact I;
             repeat (apply Forall_cons;
                     [split; [cbn; lia | split; [reflexivity|]];
                      intros f fl a kind elems H1 H2; cbn in H1; congruence|]);
             apply Forall_nil|]).
    apply Forall_nil.
Defined.

(** ** What the calls keep *)

Lemma perform_conditions (c : call) (p : QuerySetImpl) :
  exists more more',
    filterCondition (fst (perform c p)) = (filterCondition p ++ more)%list
    /\ excludeCondition (fst (perform c p)) = (excludeCondition p ++ more')%list.
Proof.
  destruct c; cbn [perform fst];
    try (exists [], []; cbn; now rewrite !List.app_nil_r).
  - unfold FilterToSQL.
    destruct (filterHandler (operator_ p) filter) as [[sql args]|];
      [destruct (sql =? "")|]; cbn [fst];
      try (exists [], []; cbn; now rewrite !List.app_nil_r).
    eexists; exists []. cbn. split; [reflexivity | now rewrite List.app_nil_r].
  - unfold ExcludeToSQL.
    destruct (filterHandler (operator_ p) exclude) as [[sql args]|];
      [destruct (sql =? "")|]; cbn [fst];
      try (exists [], []; cbn; now rewrite !List.app_nil_r).
    exists []; eexists. cbn. split; [now rewrite List.app_nil_r | reflexivity].
  - unfold OrderByToSQL. destruct (List.length orderBy <=? 0)%nat;
      exists [], []; cbn; now rewrite !List.app_nil_r.
  - unfold LimitToSQL. destruct ((pageSize >? 0) && (pageNum >? 0))%Z;
      exists [], []; cbn; now rewrite !List.app_nil_r.
Qed.

(** X6: no call of the builder drops or alters a condition already
    accumulated: after any chain of calls, returned or cut by a panic, the
    include and the exclude conditions are those held before, in order,
    followed by the new ones. *)
Theorem accumulated_conditions_are_kept (cs : list call) (p : QuerySetImpl) :
  exists more more',
    filterCondition (fst (chain cs p)) = (filterCondition p ++ more)%list
    /\ excludeCondition (fst (chain cs p)) = (excludeCondition p ++ more')%list.
Proof.
  revert p. induction cs as [|c cs IH]; intros p.
  - exists [], []. cbn. now rewrite !List.app_nil_r.
  - cbn [chain].
    destruct (perform_conditions c p) as (m1 & m1' & Hf & He).
    destruct (perform c p) as [p' [[]|msg]]; cbn [fst] in *.
    + destruct (IH p') as (m2 & m2' & Hf2 & He2).
      exists (m1 ++ m2)%list, (m1' ++ m2')%list.
      now rewrite Hf2, He2, Hf, He, <- !List.app_assoc.
    + now exists m1, m1'.
Qed.

(** ** ORDER BY *)

Lemma orderByLoop_append (orderBy : list string) (asc : bool) (sql : string) :
  orderByLoop orderBy asc sql = sql ++ orderByLoop orderBy asc "".
Proof.
  revert asc sql. induction orderBy as [|by_ rest IH]; intros asc sql.
  - cbn. now rewrite append_nil_r.
  - cbn [orderByLoop]. cbv zeta.
    destruct (HasPrefix (TrimSpace by_) "-"), asc;
      match goal with
      | |- orderByLoop _ ?a ?s1 = _ ++ orderByLoop _ _ ?s2 =>
          rewrite (IH a s1), (IH a s2)
      end; assoc.
Qed.

Lemma orderByLoop_step (by_ : string) (rest : list string) (asc : bool) :
  orderByLoop (by_ :: rest) asc ""
  = ", " ++ "`" ++ orderColumn by_
      ++ (if asc && negb (descending by_) then "` ASC" else "` DESC")
      ++ orderByLoop rest (asc && negb (descending by_)) "".
Proof.
  cbn [orderByLoop]. cbv zeta. rewrite orderByLoop_append.
  unfold orderColumn, descending.
  destruct (HasPrefix (TrimSpace by_) "-"), asc; assoc.
Qed.

Lemma orderByLoop_ends (orderBy : list string) (asc : bool) :
  orderBy <> [] -> exists m, orderByLoop orderBy asc "" = m ++ "C".
Proof.
  revert asc. induction orderBy as [|by_ rest IH]; intros asc Hne; [congruence|].
  rewrite orderByLoop_step. destruct rest as [|by' rest].
  - cbn [orderByLoop].
    destruct (asc && negb (descending by_)).
    + exists (", " ++ "`" ++ orderColumn by_ ++ "` AS"). assoc.
    + exists (", " ++ "`" ++ orderColumn by_ ++ "` DES"). assoc.
  - destruct (IH (asc && negb (descending by_)) ltac:(discriminate)) as [m ->].
    destruct (asc && negb (descending by_)).
    + exists (", " ++ "`" ++ orderColumn by_ ++ "` ASC" ++ m). assoc.
    + exists (", " ++ "`" ++ orderColumn by_ ++ "` DESC" ++ m). assoc.
Qed.

Lemma HasSuffix_comma (m : string) : HasSuffix (m ++ "C") "," = false.
Proof. unfold HasSuffix. rewrite rev_append. reflexivity. Qed.

Lemma OrderByToSQL_eq (orderBy : list string) (p : QuerySetImpl) :
  OrderByToSQL orderBy p
  = set_orderBySQL p (orderBySQL p ++ orderByLoop orderBy true "").
Proof.
  unfold OrderByToSQL. destruct orderBy as [|by_ rest].
  - destruct p. cbn. now rewrite append_nil_r.
  - cbn [List.length Nat.leb]. cbv zeta.
    rewrite orderByLoop_append.
    destruct (@orderByLoop_ends (by_ :: rest) true ltac:(discriminate)) as [m E].
    rewrite E. rewrite <- append_assoc, HasSuffix_comma. reflexivity.
Qed.

(** X7: a call of [OrderByToSQL] only appends: the accumulated text is kept
    as it is, followed by the rendering of the call's own columns, which
    does not depend on earlier calls; nothing else of the query set
    changes.  Two calls in a row leave the first call's terms followed by
    the second's. *)
Theorem OrderByToSQL_appends_own_terms (first second : list string) (p : QuerySetImpl) :
  OrderByToSQL second (OrderByToSQL first p)
  = set_orderBySQL p
      (orderBySQL p ++ orderByLoop first true "" ++ orderByLoop second true "").
Proof.
  rewrite !OrderByToSQL_eq. destruct p. cbn. now rewrite append_assoc.
Qed.

Lemma orderByLoop_descending (orderBy : list string) :
  orderByLoop orderBy false ""
  = catAll (map (fun by_ => ", " ++ "`" ++ orderColumn by_ ++ "` DESC") orderBy).
Proof.
  induction orderBy as [|by_ rest IH]; [reflexivity|].
  rewrite orderByLoop_step. cbn [andb map catAll]. rewrite IH. assoc.
Qed.

Lemma orderByLoop_ordered (ascs descs : list string) :
  forallb (fun by_ => negb (descending by_)) ascs = true ->
  forallb descending descs = true ->
  orderByLoop (ascs ++ descs) true ""
  = catAll (map (fun by_ => ", " ++ orderTerm by_) (ascs ++ descs)).
Proof.
  intros Ha Hd. induction ascs as [|by_ rest IH].
  - cbn [List.app]. destruct descs as [|by_ rest]; [reflexivity|].
    cbn [forallb] in Hd. apply andb_true_iff in Hd as [Hb Hrest].
    rewrite orderByLoop_step, Hb. cbn [andb negb map catAll].
    rewrite orderByLoop_descending. unfold orderTerm at 1. rewrite Hb.
    assert (E : map (fun by_ => ", " ++ orderTerm by_) rest
                = map (fun by_ => ", " ++ "`" ++ orderColumn by_ ++ "` DESC") rest).
    { apply map_ext_in. intros b Hin. unfold orderTerm.
      rewrite forallb_forall in Hrest. now rewrite (Hrest b Hin). }
    rewrite E. assoc.
  - cbn [forallb] in Ha. apply andb_true_iff in Ha as [Hb Hrest].
    cbn [List.app]. rewrite orderByLoop_step, Hb. cbn [andb map catAll].
    rewrite (IH Hrest). unfold orderTerm at 2.
    apply negb_true_iff in Hb. rewrite Hb. assoc.
Qed.

Lemma catAll_separated (ts : list string) (sep : string) :
  ts <> [] -> catAll (map (fun t => sep ++ t) ts) = sep ++ Join ts sep.
Proof.
  induction ts as [|t ts IH]; intros Hne; [congruence|].
  destruct ts as [|t' ts].
  - cbn. now rewrite append_nil_r.
  - change (catAll (map (fun t => sep ++ t) (t :: t' :: ts)))
      with ((sep ++ t) ++ catAll (map (fun t => sep ++ t) (t' :: ts))).
    rewrite IH by discriminate.
    change (Join (t :: t' :: ts) sep) with (t ++ sep ++ Join (t' :: ts) sep).
    assoc.
Qed.

(** X8: on a query set with no order yet, a call whose ascending columns
    all come before its descending ones gives the clause [ORDER BY]
    followed by the columns in order, each trimmed, in backticks and with
    its own direction, joined by a comma and a space. *)
Theorem OrderBy_ascending_then_descending (ascs descs : list string) (p : QuerySetImpl) :
  orderBySQL p = "" ->
  (ascs ++ descs)%list <> [] ->
  forallb (fun by_ => negb (descending by_)) ascs = true ->
  forallb descending descs = true ->
  GetOrderBySQL (OrderByToSQL (ascs ++ descs) p)
  = " ORDER BY " ++ Join (map orderTerm (ascs ++ descs)) ", ".
Proof.
  intros Hp Hne Ha Hd.
  rewrite OrderByToSQL_eq, Hp, (orderByLoop_ordered _ _ Ha Hd).
  rewrite <- (map_map orderTerm (fun t => ", " ++ t)).
  rewrite catAll_separated by (destruct (ascs ++ descs)%list; [congruence | discriminate]).
  reflexivity.
Qed.

Lemma OrderBy_ascending_then_descending_witness :
  GetOrderBySQL (OrderByToSQL (["name"; " id "] ++ ["-created_at"; " -age"]) q0)
  = " ORDER BY " ++ Join (map orderTerm (["name"; " id "] ++ ["-created_at"; " -age"])) ", ".
Proof.
  apply OrderBy_ascending_then_descending;
    [reflexivity | discriminate | reflexivity | reflexivity].
Defined.

(** ** GROUP BY *)

Lemma Join_quoteColumn (columns : list string) :
  columns <> [] ->
  "`" ++ Join columns "`,`" ++ "`" = Join (map quoteColumn columns) ",".
Proof.
  induction columns as [|c rest IH]; intros Hne; [congruence|].
  destruct rest as [|c' rest]; [reflexivity|].
  change (Join (c :: c' :: rest) "`,`") with (c ++ "`,`" ++ Join (c' :: rest) "`,`").
  change (Join (map quoteColumn (c :: c' :: rest)) ",")
    with (quoteColumn c ++ "," ++ Join (map quoteColumn (c' :: rest)) ",").
  rewrite <- IH by discriminate. unfold quoteColumn. assoc.
Qed.

(** X9: for a list of at least one column, the group-by output is
    [GROUP BY] followed by the columns in order, each in backticks, joined
    by commas, whatever the query set held before. *)
Theorem GroupBy_quotes_each_column (groupBy : list string) (p : QuerySetImpl) :
  groupBy <> [] ->
  GetGroupBySQL (GroupByToSQL groupBy p)
  = " GROUP BY " ++ Join (map quoteColumn groupBy) ",".
Proof.
  intros Hne. unfold GetGroupBySQL, GroupByToSQL. cbn [groupSQL set_groupSQL].
  now rewrite <- Join_quoteColumn.
Qed.

Lemma GroupBy_quotes_each_column_witness :
  GetGroupBySQL (GroupByToSQL ["dept"; "role"] (GroupByToSQL ["x"] q0))
  = " GROUP BY " ++ Join (map quoteColumn ["dept"; "role"]) ",".
Proof. apply GroupBy_quotes_each_column. discriminate. Defined.

(** ** LIMIT *)

Lemma int64_small (z : Z) : inInt64 z -> int64 z = z.
Proof.
  unfold inInt64, int64. intros H. rewrite Z.mod_small; lia.
Qed.

(** X10: a page size and a page number that are both positive set the limit
    to the page size and the offset to the rows of the pages before, as
    long as that product is below 2^63; if either is zero or negative the
    call changes nothing, so a limit set earlier stays. *)
Theorem Limit_pages (pageSize pageNum : Z) (p : QuerySetImpl) :
  inInt64 pageSize -> inInt64 pageNum ->
  ((0 < pageSize)%Z -> (0 < pageNum)%Z -> ((pageNum - 1) * pageSize < 2 ^ 63)%Z ->
   GetLimitSQL (LimitToSQL pageSize pageNum p)
   = " LIMIT " ++ formatInt pageSize
       ++ " OFFSET " ++ formatInt ((pageNum - 1) * pageSize))
  /\ ((pageSize <= 0)%Z \/ (pageNum <= 0)%Z -> LimitToSQL pageSize pageNum p = p).
Proof.
  intros Hs Hn. unfold LimitToSQL. split.
  - intros H1 H2 H3.
    replace ((pageSize >? 0) && (pageNum >? 0))%Z with true
      by (symmetry; apply andb_true_iff; split; apply Z.gtb_lt; lia).
    cbn [GetLimitSQL limitSQL set_limitSQL].
    rewrite (int64_small (z := pageNum - 1)) by (unfold inInt64 in *; lia).
    rewrite int64_small by (unfold inInt64 in *; nia).
    reflexivity.
  - intros H.
    replace ((pageSize >? 0) && (pageNum >? 0))%Z with false; [reflexivity|].
    symmetry. apply andb_false_iff.
    destruct H; [left | right]; rewrite Z.gtb_ltb; apply Z.ltb_ge; lia.
Qed.

Lemma Limit_pages_witness :
  GetLimitSQL (LimitToSQL 10 3 q0) = " LIMIT 10 OFFSET 20"
  /\ LimitToSQL 0 3 (LimitToSQL 10 3 q0) = LimitToSQL 10 3 q0.
Proof.
  destruct (@Limit_pages 10 3 q0) as [H _]; [unfold inInt64; lia | unfold inInt64; lia|].
  destruct (@Limit_pages 0 3 (LimitToSQL 10 3 q0)) as [_ H'];
    [unfold inInt64; lia | unfold inInt64; lia|].
  split.
  - apply H; lia.
  - apply H'. left. lia.
Defined.

(** * The controller

    ** Split and Join *)

Lemma splitFrom_not_nil (sep : string) (s : string) (skip : nat) (cur : string) :
  splitFrom sep skip cur s <> [].
Proof.
  revert skip cur. induction s as [|c s IH]; intros skip cur; cbn [splitFrom].
  - discriminate.
  - destruct skip; [destruct (prefix sep (String c s)); [discriminate|]|]; apply IH.
Qed.

Lemma Join_cons (x : string) (l : list string) (sep : string) :
  l <> [] -> Join (x :: l) sep = x ++ sep ++ Join l sep.
Proof. destruct l; [congruence | reflexivity]. Qed.

Lemma prefix_split (p s : string) :
  prefix p s = true -> s = p ++ drop (String.length p) s.
Proof.
  revert s. induction p as [|a p IH]; intros s H; [reflexivity|].
  destruct s as [|c s]; [discriminate|]. cbn in H.
  destruct (ascii_dec a c) as [->|]; [|discriminate].
  cbn. f_equal. now apply IH.
Qed.

Lemma drop_nil (n : nat) : drop n "" = "".
Proof. now destruct n. Qed.

Lemma splitFrom_Join (sep : string) (s : string) (skip : nat) (cur : string) :
  sep <> "" ->
  Join (splitFrom sep skip cur s) sep = cur ++ drop skip s.
Proof.
  intros Hsep. revert skip cur. induction s as [|c s IH]; intros skip cur.
  - cbn. now rewrite drop_nil, append_nil_r.
  - cbn [splitFrom]. destruct skip as [|k].
    + destruct (prefix sep (String c s)) eqn:Hp.
      * rewrite Join_cons by apply splitFrom_not_nil.
        rewrite IH. cbn [drop append]. do 2 f_equal.
        apply prefix_split in Hp.
        destruct sep as [|a sep']; [congruence|].
        cbn [String.length drop append] in *.
        replace (S (String.length sep') - 1) with (String.length sep') by lia.
        now rewrite Hp.
      * rewrite IH. cbn [drop]. assoc.
    + rewrite IH. reflexivity.
Qed.

(** Joining the parts of a string with the separator it was split on gives
    the string back. *)
Lemma Join_Split (s sep : string) : sep <> "" -> Join (Split s sep) sep = s.
Proof. intros H. unfold Split. now rewrite splitFrom_Join. Qed.

(** X11: [Select] with a non-empty string takes it as a comma-separated
    list, and the select list it sets is that very string; nothing is
    logged and nothing else of the controller changes. *)
Theorem Select_string_round_trip (s : string) (m : norm.Impl) :
  s <> "" ->
  norm.Select (norm.Str s) m
  = norm.done (norm.set_qs m (set_selectColumn (norm.qs m) s)) []
  /\ GetSelectSQL (norm.qs (norm.after (norm.Select (norm.Str s) m))) = s.
Proof.
  intros Hs. unfold norm.Select, norm.strings.
  apply String.eqb_neq in Hs as Hb. rewrite Hb.
  unfold SelectToSQL. rewrite Join_Split by discriminate.
  split; [reflexivity|].
  cbn. unfold GetSelectSQL. cbn. now rewrite Hb.
Qed.

Lemma Select_string_round_trip_witness :
  let m := {| norm.table := "`user`"; norm.fieldNameMap := ["id"; "name"];
              norm.fieldRows := "`id`,`name`"; norm.qs := q0 |} in
  GetSelectSQL (norm.qs (norm.after (norm.Select (norm.Str "id, count(1) AS n") m)))
  = "id, count(1) AS n".
Proof.
  intros m. apply (proj2 (@Select_string_round_trip "id, count(1) AS n" m ltac:(discriminate))).
Defined.

(** ** OrderBy, GroupBy and values of the controller *)

Lemma orderByChecked_eq (m : norm.Impl) (l : list string) :
  norm.orderByChecked m l
  = (map TrimSpace (filter (knownOrder m) l),
     map (fun by_ => "Order by key [" ++ orderColumn by_ ++ "] not exist.")
       (filter (fun by_ => negb (knownOrder m by_)) l)).
Proof.
  induction l as [|by_ rest IH]; [reflexivity|].
  cbn [norm.orderByChecked filter]. cbv zeta. rewrite IH.
  change (knownOrder m by_) with (norm.has m (orderColumn by_)).
  assert (Hc : orderColumn by_
               = if HasPrefix (TrimSpace by_) "-"
                 then drop 1 (TrimSpace by_) else TrimSpace by_) by reflexivity.
  destruct (HasPrefix (TrimSpace by_) "-"); rewrite Hc;
    destruct (norm.has m _); cbn [negb map]; rewrite ?Hc; reflexivity.
Qed.

(** X12: [OrderBy] with a list of at least one string passes on to the
    query set exactly the entries whose column (trimmed, without the
    leading [-]) is a field of the model, trimmed and in order, and logs
    one line for each of the others; if no entry names a field the
    controller is left as it was. *)
Theorem controller_OrderBy_keeps_fields (l : list string) (m : norm.Impl) :
  l <> [] ->
  norm.OrderBy (norm.Strings l) m
  = norm.done
      (norm.set_qs m
         (OrderByToSQL (map TrimSpace (filter (knownOrder m) l)) (norm.qs m)))
      (map (fun by_ => "Order by key [" ++ orderColumn by_ ++ "] not exist.")
         (filter (fun by_ => negb (knownOrder m by_)) l))
  /\ (forallb (fun by_ => negb (knownOrder m by_)) l = true ->
      norm.after (norm.OrderBy (norm.Strings l) m) = m).
Proof.
  intros Hne.
  assert (E : norm.OrderBy (norm.Strings l) m
              = norm.done
                  (norm.set_qs m
                     (OrderByToSQL (map TrimSpace (filter (knownOrder m) l)) (norm.qs m)))
                  (map (fun by_ => "Order by key [" ++ orderColumn by_ ++ "] not exist.")
                     (filter (fun by_ => negb (knownOrder m by_)) l))).
  { unfold norm.OrderBy, norm.strings.
    replace (List.length l =? 0)%nat with false by (destruct l; [congruence | reflexivity]).
    now rewrite orderByChecked_eq. }
  split; [exact E|].
  intros Hnone. rewrite E. cbn [norm.after norm.done].
  replace (filter (knownOrder m) l) with (@nil string).
  - destruct m. reflexivity.
  - symmetry. clear E Hne. induction l as [|by_ rest IH]; [reflexivity|].
    cbn [forallb] in Hnone. apply andb_true_iff in Hnone as [Hb Hrest].
    apply negb_true_iff in Hb. cbn [filter]. rewrite Hb. now apply IH.
Qed.

Lemma controller_OrderBy_keeps_fields_witness :
  let m := {| norm.table := "`user`"; norm.fieldNameMap := ["id"; "name"];
              norm.fieldRows := "`id`,`name`"; norm.qs := q0 |} in
  GetOrderBySQL (norm.qs (norm.after (norm.OrderBy (norm.Strings [" name"; "-pass"; "-id"]) m)))
  = " ORDER BY `name` ASC, `id` DESC"
  /\ norm.logged (norm.OrderBy (norm.Strings [" name"; "-pass"; "-id"]) m)
     = ["Order by key [pass] not exist."].
Proof.
  intros m.
  rewrite (proj1 (@controller_OrderBy_keeps_fields [" name"; "-pass"; "-id"] m
                    ltac:(discriminate))).
  split; reflexivity.
Defined.

Lemma groupByChecked_eq (m : norm.Impl) (l : list string) :
  norm.groupByChecked m l
  = (map TrimSpace (filter (knownGroup m) l),
     map (fun by_ => "Group by key [" ++ TrimSpace by_ ++ "] not exist.")
       (filter (fun by_ => negb (knownGroup m by_)) l)).
Proof.
  induction l as [|by_ rest IH]; [reflexivity|].
  cbn [norm.groupByChecked filter]. cbv zeta. rewrite IH.
  change (knownGroup m by_) with (norm.has m (TrimSpace by_)).
  now destruct (norm.has m (TrimSpace by_)).
Qed.

(** X13: [GroupBy] with a list of at least one string groups by the
    entries that, trimmed, are fields of the model: the clause is [GROUP BY]
    and those columns in order, each in backticks, joined by commas.  If no
    entry is a field the clause is still set, over one empty identifier. *)
Theorem controller_GroupBy_keeps_fields (l : list string) (m : norm.Impl) :
  l <> [] ->
  GetGroupBySQL (norm.qs (norm.after (norm.GroupBy (norm.Strings l) m)))
  = if existsb (knownGroup m) l
    then " GROUP BY "
           ++ Join (map quoteColumn (map TrimSpace (filter (knownGroup m) l))) ","
    else " GROUP BY ``".
Proof.
  intros Hne. unfold norm.GroupBy, norm.strings.
  replace (List.length l =? 0)%nat with false by (destruct l; [congruence | reflexivity]).
  rewrite groupByChecked_eq. cbn [norm.after norm.done norm.qs norm.set_qs].
  unfold GetGroupBySQL, GroupByToSQL. cbn [groupSQL set_groupSQL].
  destruct (existsb (knownGroup m) l) eqn:Hex.
  - assert (Hk : map TrimSpace (filter (knownGroup m) l) <> []).
    { apply existsb_exists in Hex as (x & Hin & Hx).
      intros Hnil. apply map_eq_nil in Hnil.
      assert (Hf : In x (filter (knownGroup m) l)) by (apply filter_In; auto).
      rewrite Hnil in Hf. exact Hf. }
    now rewrite <- Join_quoteColumn.
  - replace (filter (knownGroup m) l) with (@nil string); [reflexivity|].
    symmetry. clear Hne. induction l as [|by_ rest IH]; [reflexivity|].
    cbn [existsb] in Hex. apply orb_false_iff in Hex as [Hb Hrest].
    cbn [filter]. rewrite Hb. now apply IH.
Qed.

Lemma controller_GroupBy_keeps_fields_witness :
  let m := {| norm.table := "`user`"; norm.fieldNameMap := ["id"; "name"];
              norm.fieldRows := "`id`,`name`"; norm.qs := q0 |} in
  GetGroupBySQL (norm.qs (norm.after (norm.GroupBy (norm.Strings ["name "; "pass"; "id"]) m)))
  = " GROUP BY `name`,`id`".
Proof.
  intros m.
  rewrite (@controller_GroupBy_keeps_fields ["name "; "pass"; "id"] m ltac:(discriminate)).
  reflexivity.
Defined.

Lemma valueRows_eq (m : norm.Impl) (vs : list string) (rows : string) :
  norm.valueRows m vs rows
  = (rows ++ catAll (map (fun t => t ++ ",") (map quoteColumn (filter (norm.has m) vs))),
     map (fun v => "Key [" ++ v ++ "] not exist.")
       (filter (fun v => negb (norm.has m v)) vs)).
Proof.
  revert rows. induction vs as [|v rest IH]; intros rows.
  - cbn. now rewrite append_nil_r.
  - cbn [norm.valueRows filter]. destruct (norm.has m v); cbn [negb map catAll].
    + rewrite IH. unfold quoteColumn. f_equal. assoc.
    + now rewrite IH.
Qed.

Lemma Join_ends_with_tick (ts : list string) :
  ts <> [] -> exists body, Join (map quoteColumn ts) "," = body ++ "`".
Proof.
  induction ts as [|t ts IH]; intros Hne; [congruence|].
  destruct ts as [|t' ts].
  - exists ("`" ++ t). unfold quoteColumn. assoc.
  - destruct (IH ltac:(discriminate)) as [body E].
    change (Join (map quoteColumn (t :: t' :: ts)) ",")
      with (quoteColumn t ++ "," ++ Join (map quoteColumn (t' :: ts)) ",").
    rewrite E. exists (quoteColumn t ++ "," ++ body). assoc.
Qed.

(** X14: [values] gives the given names that are fields of the model, in
    order, each in backticks, joined by commas with none left at the end,
    and logs one line for each name that is no field. *)
Theorem values_quotes_fields (m : norm.Impl) (vs : list string) :
  norm.values m vs
  = (Join (map quoteColumn (filter (norm.has m) vs)) ",",
     map (fun v => "Key [" ++ v ++ "] not exist.")
       (filter (fun v => negb (norm.has m v)) vs)).
Proof.
  unfold norm.values. rewrite valueRows_eq. f_equal.
  change ("" ++ ?x) with x.
  destruct (filter (norm.has m) vs) as [|v known] eqn:E; [reflexivity|].
  rewrite catAll_Join by discriminate.
  destruct (@Join_ends_with_tick (v :: known) ltac:(discriminate)) as [body ->].
  unfold norm.TrimRightCommas.
  replace ((body ++ "`") ++ ",") with (body ++ "`,") by assoc.
  rewrite rev_append. cbn [rev append norm.dropCommas].
  now rewrite rev_involutive.
Qed.

(** ** The operator table, both ways *)

(** X15: a keyword translates to an operator text that is not empty exactly
    when it is one of the keywords of the table. *)
Theorem OperatorSQL_known_iff (keyword : string) :
  mysql.OperatorSQL keyword <> "" <-> In keyword (map fst mysql.operators).
Proof.
  split.
  - intros H. destruct (in_dec string_dec keyword (map fst mysql.operators)) as [Hin|Hout];
      [exact Hin|].
    elim H. now apply OperatorSQL_unknown.
  - cbn [map fst mysql.operators In]. intros H.
    repeat (destruct H as [<- | H]; [discriminate|]). contradiction.
Qed.

(** ** Lookup keys, read back *)

Lemma splitFrom_keyPart (f rest cur : string) :
  keyPart f = true ->
  splitFrom "__" 0 cur (f ++ rest) = splitFrom "__" 0 (cur ++ f) rest.
Proof.
  revert cur. induction f as [|c f IH]; intros cur H.
  - cbn. now rewrite append_nil_r.
  - cbn [keyPart] in H. apply andb_true_iff in H as [Hc Hf].
    cbn [append splitFrom].
    replace (prefix "__" (String c (f ++ rest))) with false.
    + rewrite IH by exact Hf. f_equal. assoc.
    + symmetry. cbn [prefix].
      destruct (ascii_dec "_" c) as [<-|]; [|reflexivity].
      destruct f as [|c' f]; [cbn in Hc; discriminate|]. cbn [append prefix].
      destruct (ascii_dec "_" c') as [<-|]; [cbn in Hc; discriminate|].
      now destruct (f ++ rest).
Qed.

Lemma Split_keyPart (f : string) : keyPart f = true -> Split f "__" = [f].
Proof.
  intros H. unfold Split.
  rewrite <- (append_nil_r f) at 1. now rewrite splitFrom_keyPart.
Qed.

Lemma Split_keyPart_more (f rest : string) :
  keyPart f = true -> Split (f ++ "__" ++ rest) "__" = f :: Split rest "__".
Proof.
  intros H. unfold Split. rewrite splitFrom_keyPart by exact H.
  now destruct rest.
Qed.

(** X16: the key syntax reads back.  For a field and an operator keyword in
    which every underscore is followed by a byte other than an underscore,
    and an operator other than [Q], the keys [field], [field__op],
    [field__Q] and [field__op__Q] resolve to that field, to that operator
    (or [exact]) and to the flag of [Q], whatever the loop held before. *)
Theorem lookup_key_reads_back (f o : string) (st : loopState) :
  keyPart f = true -> keyPart o = true -> o <> "Q" ->
  lookups f st = Ok (f, "exact", 0)
  /\ lookups (f ++ "__" ++ o) st = Ok (f, o, 0)
  /\ lookups (f ++ "__Q") st = Ok (f, "exact", 1)
  /\ lookups (f ++ "__" ++ o ++ "__Q") st = Ok (f, o, 1).
Proof.
  intros Hf Ho HQ. apply String.eqb_neq in HQ. unfold lookups. repeat split.
  - now rewrite Split_keyPart.
  - rewrite Split_keyPart_more, Split_keyPart by assumption. now rewrite HQ.
  - change (f ++ "__Q") with (f ++ "__" ++ "Q").
    rewrite (@Split_keyPart_more f "Q" Hf). reflexivity.
  - change (o ++ "__Q") with (o ++ "__" ++ "Q").
    rewrite Split_keyPart_more, (@Split_keyPart_more o "Q" Ho) by assumption. reflexivity.
Qed.

Lemma lookup_key_reads_back_witness :
  lookups "created_at" st0 = Ok ("created_at", "exact", 0)
  /\ lookups ("created_at" ++ "__" ++ "gte") st0 = Ok ("created_at", "gte", 0)
  /\ lookups ("created_at" ++ "__Q") st0 = Ok ("created_at", "exact", 1)
  /\ lookups ("created_at" ++ "__" ++ "gte" ++ "__Q") st0 = Ok ("created_at", "gte", 1).
Proof.
  apply lookup_key_reads_back; [reflexivity | reflexivity | discriminate].
Defined.

(** ** shiftName *)

Lemma noUpper_append (s t : string) : noUpper (s ++ t) = noUpper s && noUpper t.
Proof.
  induction s as [|c s IH]; [reflexivity|].
  cbn [append noUpper]. now rewrite IH, andb_assoc.
Qed.

Lemma upper_high (c : ascii) : (128 <=? byte c)%N = true -> norm.upper c = false.
Proof.
  unfold norm.upper. intros H. apply N.leb_le in H.
  apply andb_false_iff. right. apply N.leb_gt. lia.
Qed.

Lemma upper_not_ascii (c : ascii) : (byte c <? 128)%N = false -> norm.upper c = false.
Proof. intros H. apply upper_high. apply N.leb_le. apply N.ltb_ge in H. exact H. Qed.

Lemma upper_cont (c : ascii) : norm.cont c = true -> norm.upper c = false.
Proof.
  unfold norm.cont. intros H. apply andb_true_iff in H as [H _]. now apply upper_high.
Qed.

Lemma rune2_high (c1 c2 : ascii) :
  norm.rune2 c1 c2 = true -> norm.upper c2 = false.
Proof.
  unfold norm.rune2. intros H. apply andb_true_iff in H as [_ H]. now apply upper_cont.
Qed.

Lemma second_high (c1 c2 : ascii) (lo hi : N) :
  ((lo <=? byte c2) && (byte c2 <=? hi))%N = true -> (128 <= lo)%N ->
  norm.upper c2 = false.
Proof.
  intros H Hlo. apply andb_true_iff in H as [H _]. apply N.leb_le in H.
  apply upper_high. apply N.leb_le. lia.
Qed.

Lemma rune3_high (c1 c2 c3 : ascii) :
  norm.rune3 c1 c2 c3 = true -> norm.upper c2 = false /\ norm.upper c3 = false.
Proof.
  unfold norm.rune3. cbv zeta. intros H.
  apply andb_true_iff in H as [H H3]. split; [|now apply upper_cont].
  apply orb_true_iff in H as [H|H]; [apply orb_true_iff in H as [H|H]|].
  - rewrite <- andb_assoc in H. apply andb_true_iff in H as [_ H].
    apply (second_high c1 _ _ H). lia.
  - apply andb_true_iff in H as [_ H]. now apply upper_cont.
  - rewrite <- andb_assoc in H. apply andb_true_iff in H as [_ H].
    apply (second_high c1 _ _ H). lia.
Qed.

Lemma rune4_high (c1 c2 c3 c4 : ascii) :
  norm.rune4 c1 c2 c3 c4 = true ->
  norm.upper c2 = false /\ norm.upper c3 = false /\ norm.upper c4 = false.
Proof.
  unfold norm.rune4. cbv zeta. intros H.
  apply andb_true_iff in H as [H H4]. apply andb_true_iff in H as [H H3].
  split; [|split; now apply upper_cont].
  apply orb_true_iff in H as [H|H]; [apply orb_true_iff in H as [H|H]|].
  - rewrite <- andb_assoc in H. apply andb_true_iff in H as [_ H].
    apply (second_high c1 _ _ H). lia.
  - apply andb_true_iff in H as [_ H]. now apply upper_cont.
  - rewrite <- andb_assoc in H. apply andb_true_iff in H as [_ H].
    apply (second_high c1 _ _ H). lia.
Qed.

Lemma lowered_not_upper (c : ascii) :
  norm.upper c = true -> norm.upper (ascii_of_N (byte c + 32)) = false.
Proof.
  unfold norm.upper, byte. intros H. apply andb_true_iff in H as [H1 H2].
  apply N.leb_le in H1, H2.
  rewrite N_ascii_embedding by lia.
  apply andb_false_iff. right. apply N.leb_gt. lia.
Qed.

Lemma shiftFrom_noUpper (n : nat) (s : string) :
  String.length s <= n -> forall atStart, noUpper (norm.shiftFrom atStart s) = true.
Proof.
  revert s. induction n as [|n IH]; intros s Hlen atStart.
  { destruct s; [reflexivity | cbn in Hlen; lia]. }
  destruct s as [|c1 r1]; [reflexivity|].
  cbn [String.length] in Hlen. cbn [norm.shiftFrom].
  destruct (byte c1 <? 128)%N eqn:H1.
  { rewrite noUpper_append, IH by lia. rewrite andb_true_r.
    destruct (norm.upper c1) eqn:U.
    - rewrite noUpper_append. cbn [noUpper]. rewrite (lowered_not_upper _ U).
      now destruct atStart.
    - cbn [noUpper]. now rewrite U. }
  pose proof (upper_not_ascii _ H1) as U1.
  assert (R : noUpper (norm.replacement ++ norm.shiftFrom false r1) = true).
  { rewrite noUpper_append, IH by lia. reflexivity. }
  destruct r1 as [|c2 r2]; [exact R|]. cbn [String.length] in Hlen.
  destruct (norm.rune2 c1 c2) eqn:E2.
  { cbn [noUpper]. rewrite U1, (rune2_high _ _ E2), IH by lia. reflexivity. }
  destruct r2 as [|c3 r3]; [exact R|]. cbn [String.length] in Hlen.
  destruct (norm.rune3 c1 c2 c3) eqn:E3.
  { destruct (rune3_high _ _ _ E3) as [U2 U3].
    cbn [noUpper]. rewrite U1, U2, U3, IH by lia. reflexivity. }
  destruct r3 as [|c4 r4]; [exact R|]. cbn [String.length] in Hlen.
  destruct (norm.rune4 c1 c2 c3 c4) eqn:E4; [|exact R].
  destruct (rune4_high _ _ _ _ E4) as (U2 & U3 & U4).
  cbn [noUpper]. rewrite U1, U2, U3, U4, IH by lia. reflexivity.
Qed.

Lemma shiftFrom_lowerAscii (s : string) (atStart : bool) :
  lowerAscii s = true -> norm.shiftFrom atStart s = s.
Proof.
  revert atStart. induction s as [|c r IH]; intros atStart H; [reflexivity|].
  cbn [lowerAscii] in H. apply andb_true_iff in H as [H Hr].
  apply andb_true_iff in H as [H1 HU]. apply negb_true_iff in HU.
  cbn [norm.shiftFrom]. rewrite H1, HU, IH by exact Hr. reflexivity.
Qed.

(** X17: the table name [shiftName] derives is always in backticks and
    holds no ASCII capital letter; a name of ASCII bytes without capitals
    is kept as it is between the backticks. *)
Theorem shiftName_has_no_capitals (s : string) :
  (exists body, norm.shiftName s = "`" ++ body ++ "`" /\ noUpper body = true)
  /\ (lowerAscii s = true -> norm.shiftName s = "`" ++ s ++ "`").
Proof.
  split.
  - exists (norm.shiftFrom true s). split; [reflexivity|].
    now apply (shiftFrom_noUpper (n := String.length s)).
  - intros H. unfold norm.shiftName. now rewrite shiftFrom_lowerAscii.
Qed.

Lemma shiftName_has_no_capitals_witness :
  (exists body, norm.shiftName "DevicePolicyMap" = "`" ++ body ++ "`" /\ noUpper body = true)
  /\ norm.shiftName "device_policy_map" = "`" ++ "device_policy_map" ++ "`".
Proof.
  split.
  - exact (proj1 (shiftName_has_no_capitals "DevicePolicyMap")).
  - apply (proj2 (shiftName_has_no_capitals "device_policy_map")). reflexivity.
Defined.

(** ** Membership and range filters *)

Lemma lookups_operator (f o : string) (st : loopState) :
  keyPart f = true -> keyPart o = true -> o <> "Q" ->
  lookups (f ++ "__" ++ o) st = Ok (f, o, 0)
  /\ lookups (f ++ "__" ++ o ++ "__" ++ "Q") st = Ok (f, o, 1).
Proof.
  intros Hf Ho HQ. apply String.eqb_neq in HQ. unfold lookups. split.
  - rewrite Split_keyPart_more, Split_keyPart by assumption. now rewrite HQ.
  - rewrite Split_keyPart_more, (@Split_keyPart_more o "Q" Ho) by assumption. reflexivity.
Qed.

Lemma filterHandler_single (P : Operator) (key : string) (v : value)
  (st : loopState) (c m : string) (d : ascii) :
  filterPair P st0 (key, v) = Ok st ->
  filterSql st = c ++ " " ++ m ++ String d " " ->
  c = "AND" \/ c = "OR" -> solid d = true ->
  filterHandler P [(key, v)] = Ok (m ++ String d "", filterArgs st).
Proof.
  intros E S Hc Hd. unfold filterHandler. cbn [List.length Nat.eqb filterLoop].
  fold st0. rewrite E. cbn [bind]. rewrite S.
  destruct Hc as [-> | ->].
  - replace ("AND" ++ " " ++ m ++ String d " ")
      with (String "A" (("ND " ++ m) ++ String d " ")) by assoc.
    rewrite TrimSpace_solid by auto. cbn. do 2 f_equal.
  - replace ("OR" ++ " " ++ m ++ String d " ")
      with (String "O" (("R " ++ m) ++ String d " ")) by assoc.
    rewrite TrimSpace_solid by auto. cbn. do 2 f_equal.
Qed.

(** X18: a single [in] filter over a slice or array of [n >= 1] elements of
    an accepted kind compiles to the column, the operator text and [n]
    placeholders in parentheses, with the elements as arguments; with the
    [Q] marker the same key compiles to [NOT] before the operator.  The
    column is written without backticks. *)
Theorem in_filter_fragment (P : Operator) (f : string)
  (a : bool) (kind : Kind) (elems : list value) :
  keyPart f = true -> elems <> [] -> unsupportedElemKind kind = false ->
  filterHandler P [(f ++ "__" ++ "in", Seq a kind elems)]
  = Ok (f ++ "  " ++ OperatorSQL "in"
          ++ " (?" ++ Repeat ",?" (List.length elems - 1) ++ ")", elems)
  /\ filterHandler P [(f ++ "__" ++ "in" ++ "__" ++ "Q", Seq a kind elems)]
     = Ok (f ++ " NOT " ++ OperatorSQL "in"
             ++ " (?" ++ Repeat ",?" (List.length elems - 1) ++ ")", elems).
Proof.
  intros Hf Hne Hk.
  destruct (@lookups_operator f "in" st0 Hf eq_refl ltac:(discriminate)) as [L0 L1].
  assert (Hlen : (List.length elems =? 0)%nat = false)
    by (destruct elems; [congruence | reflexivity]).
  split.
  - set (body := f ++ "  " ++ OperatorSQL "in" ++ " (?"
                   ++ Repeat ",?" (List.length elems - 1)).
    replace (f ++ "  " ++ OperatorSQL "in" ++ " (?"
               ++ Repeat ",?" (List.length elems - 1) ++ ")")
      with (body ++ String ")" "") by (subst body; assoc).
    assert (E : exists st,
               filterPair P st0 (f ++ "__" ++ "in", Seq a kind elems) = Ok st
               /\ filterSql st = "AND" ++ " " ++ body ++ String ")" " "
               /\ filterArgs st = elems).
    { eexists. split;
        [unfold filterPair; rewrite L0; cbn [bind]; rewrite Hlen, Hk; reflexivity|].
      split; [cbn [filterSql]; subst body; assoc | reflexivity]. }
    destruct E as (st & E & S & A).
    rewrite (@filterHandler_single P _ _ st "AND" body ")"%char E S) by auto.
    now rewrite A.
  - set (body := f ++ " NOT " ++ OperatorSQL "in" ++ " (?"
                   ++ Repeat ",?" (List.length elems - 1)).
    replace (f ++ " NOT " ++ OperatorSQL "in" ++ " (?"
               ++ Repeat ",?" (List.length elems - 1) ++ ")")
      with (body ++ String ")" "") by (subst body; assoc).
    assert (E : exists st,
               filterPair P st0 (f ++ "__" ++ "in" ++ "__" ++ "Q", Seq a kind elems) = Ok st
               /\ filterSql st = "OR" ++ " " ++ body ++ String ")" " "
               /\ filterArgs st = elems).
    { eexists. split;
        [unfold filterPair; rewrite L1; cbn [bind]; rewrite Hlen, Hk; reflexivity|].
      split; [cbn [filterSql]; subst body; assoc | reflexivity]. }
    destruct E as (st & E & S & A).
    rewrite (@filterHandler_single P _ _ st "OR" body ")"%char E S) by auto.
    now rewrite A.
Qed.

Lemma in_filter_fragment_witness :
  filterHandler mysql.NewOperator
    [("user_id" ++ "__" ++ "in", Seq false Int [Atom Int "1"; Atom Int "2"; Atom Int "3"])]
  = Ok ("user_id  IN (?,?,?)", [Atom Int "1"; Atom Int "2"; Atom Int "3"])
  /\ filterHandler mysql.NewOperator
       [("user_id" ++ "__" ++ "in" ++ "__" ++ "Q",
         Seq false Int [Atom Int "1"; Atom Int "2"; Atom Int "3"])]
     = Ok ("user_id NOT IN (?,?,?)", [Atom Int "1"; Atom Int "2"; Atom Int "3"]).
Proof.
  apply (@in_filter_fragment mysql.NewOperator "user_id" false Int
           [Atom Int "1"; Atom Int "2"; Atom Int "3"]);
    [reflexivity | discriminate | reflexivity].
Defined.

(** X19: a single filter with [exact], [exclude], [contains] or [icontains]
    over a slice or array of [n >= 1] elements of an accepted kind compiles
    to [n] comparisons of the column in parentheses, joined by [AND], or by
    [OR] when the key ends in the [Q] marker, with the elements as
    arguments. *)
Theorem multi_value_fragment (P : Operator) (f o : string)
  (a : bool) (kind : Kind) (elems : list value) :
  keyPart f = true -> In o ["exact"; "exclude"; "contains"; "icontains"] ->
  elems <> [] -> unsupportedElemKind kind = false ->
  filterHandler P [(f ++ "__" ++ o, Seq a kind elems)]
  = Ok ("( " ++ f ++ " " ++ OperatorSQL o ++ " ?"
          ++ Repeat (" AND " ++ f ++ " " ++ OperatorSQL o ++ " ?") (List.length elems - 1)
          ++ " )", elems)
  /\ filterHandler P [(f ++ "__" ++ o ++ "__" ++ "Q", Seq a kind elems)]
     = Ok ("( " ++ f ++ " " ++ OperatorSQL o ++ " ?"
             ++ Repeat (" OR " ++ f ++ " " ++ OperatorSQL o ++ " ?") (List.length elems - 1)
             ++ " )", elems).
Proof.
  intros Hf Ho Hne Hk.
  assert (Hop : keyPart o = true /\ o <> "Q"
                /\ (o =? "exact") || (o =? "exclude")
                   || (o =? "contains") || (o =? "icontains") = true).
  { cbn [In] in Ho. repeat (destruct Ho as [<- | Ho]; [repeat split; discriminate|]).
    contradiction. }
  destruct Hop as (Hko & HQ & Hsel).
  destruct (@lookups_operator f o st0 Hf Hko HQ) as [L0 L1].
  assert (Hlen : (List.length elems =? 0)%nat = false)
    by (destruct elems; [congruence | reflexivity]).
  split.
  - set (body := "( " ++ f ++ " " ++ OperatorSQL o ++ " ?"
                   ++ Repeat (" AND " ++ f ++ " " ++ OperatorSQL o ++ " ?")
                        (List.length elems - 1) ++ " ").
    assert (E : exists st,
               filterPair P st0 (f ++ "__" ++ o, Seq a kind elems) = Ok st
               /\ filterSql st = "AND" ++ " " ++ body ++ String ")" " "
               /\ filterArgs st = elems).
    { eexists. split;
        [unfold filterPair, sliceFragment; rewrite L0; cbn [bind];
         rewrite Hlen, Hk, Hsel; reflexivity|].
      split; [cbn [filterSql]; subst body; assoc | reflexivity]. }
    destruct E as (st & E & S & A).
    replace ("( " ++ f ++ " " ++ OperatorSQL o ++ " ?"
               ++ Repeat (" AND " ++ f ++ " " ++ OperatorSQL o ++ " ?")
                    (List.length elems - 1) ++ " )")
      with (body ++ String ")" "") by (subst body; assoc).
    rewrite (@filterHandler_single P _ _ st "AND" body ")"%char E S) by auto.
    now rewrite A.
  - set (body := "( " ++ f ++ " " ++ OperatorSQL o ++ " ?"
                   ++ Repeat (" OR " ++ f ++ " " ++ OperatorSQL o ++ " ?")
                        (List.length elems - 1) ++ " ").
    assert (E : exists st,
               filterPair P st0 (f ++ "__" ++ o ++ "__" ++ "Q", Seq a kind elems) = Ok st
               /\ filterSql st = "OR" ++ " " ++ body ++ String ")" " "
               /\ filterArgs st = elems).
    { eexists. split;
        [unfold filterPair, sliceFragment; rewrite L1; cbn [bind];
         rewrite Hlen, Hk, Hsel; reflexivity|].
      split; [cbn [filterSql]; subst body; assoc | reflexivity]. }
    destruct E as (st & E & S & A).
    replace ("( " ++ f ++ " " ++ OperatorSQL o ++ " ?"
               ++ Repeat (" OR " ++ f ++ " " ++ OperatorSQL o ++ " ?")
                    (List.length elems - 1) ++ " )")
      with (body ++ String ")" "") by (subst body; assoc).
    rewrite (@filterHandler_single P _ _ st "OR" body ")"%char E S) by auto.
    now rewrite A.
Qed.

Lemma multi_value_fragment_witness :
  filterHandler mysql.NewOperator
    [("name" ++ "__" ++ "icontains", Seq false String_ [Atom String_ "a"; Atom String_ "b"])]
  = Ok ("( name LIKE ? AND name LIKE ? )", [Atom String_ "a"; Atom String_ "b"])
  /\ filterHandler mysql.NewOperator
       [("name" ++ "__" ++ "icontains" ++ "__" ++ "Q",
         Seq false String_ [Atom String_ "a"; Atom String_ "b"])]
     = Ok ("( name LIKE ? OR name LIKE ? )", [Atom String_ "a"; Atom String_ "b"]).
Proof.
  apply (@multi_value_fragment mysql.NewOperator "name" "icontains" false String_
           [Atom String_ "a"; Atom String_ "b"]);
    [reflexivity | cbn; auto | discriminate | reflexivity].
Defined.
